(** * nwgeom_out2xyz: extraction of NWChem geometries to XYZ files

    A shallow embedding of [src/python/nwgeom_out2xyz.py] and the
    verification of its specification.

    Modelling conventions.
    - Python [str] values are [string]s whose characters are the code
      points U+0000..U+00FF.
    - A text file opened for reading is the list of its remaining lines,
      each line keeping its newline; reading consumes the head of the list.
    - The file system is a finite map from path names to file contents.
      Opening a path for writing always succeeds.
    - Python [float] is IEEE 754 binary64, given by [spec_float] with
      [prec = 53] and [emax = 1024]; [float(str)] and [repr(float)] are
      modelled by exact integer arithmetic.
    - Exceptions are values of [exn]; a computation that can raise returns
      a [result].
    - Standard output (the debug echo and the diagnostics printed before
      [sys.exit()]) is not modelled. *)

From Stdlib Require Import ZArith Lia Ascii String DecimalString.
From Stdlib Require Import Floats.SpecFloat.
From Stdlib Require DecimalPos DecimalN.
From stdpp Require Import base strings list gmap.
From Equations Require Import Equations.
From Equations.Prop Require Import Logic.

(** ** Python text primitives *)

Module PyStr.

Definition nl : string := String "010" EmptyString.

(** [str.isspace] on a single code point below U+0100. *)
Definition is_space (c : ascii) : bool :=
  let n := nat_of_ascii c in
  ((9 <=? n) && (n <=? 13)) || ((28 <=? n) && (n <=? 32))
  || (n =? 133) || (n =? 160).

(** Removal of the leading, and of the trailing, characters that satisfy
    [p]. *)
Fixpoint lstrip_by (p : ascii -> bool) (s : string) : string :=
  match s with
  | EmptyString => EmptyString
  | String c s' => if p c then lstrip_by p s' else s
  end.

Fixpoint rstrip_by (p : ascii -> bool) (s : string) : string :=
  match s with
  | EmptyString => EmptyString
  | String c s' =>
      match rstrip_by p s' with
      | EmptyString => if p c then EmptyString else String c EmptyString
      | r => String c r
      end
  end.

(** [s.strip()] *)
Definition strip (s : string) : string :=
  lstrip_by is_space (rstrip_by is_space s).

(** [s.startswith(p)] *)
Definition startswith (s p : string) : bool := String.prefix p s.

(** [s.split()]: maximal runs of non-whitespace characters. *)
Fixpoint split (s : string) : list string :=
  match s with
  | EmptyString => []
  | String c s' =>
      if is_space c then split s'
      else
        match s' with
        | EmptyString => [String c EmptyString]
        | String d _ =>
            if is_space d then String c EmptyString :: split s'
            else
              match split s' with
              | t :: ts => String c t :: ts
              | [] => [String c EmptyString]
              end
        end
  end.

(** [s.split(sep)] for a one-character separator. *)
Fixpoint split_on (sep : ascii) (s : string) : list string :=
  match s with
  | EmptyString => [EmptyString]
  | String c s' =>
      if Ascii.eqb c sep then EmptyString :: split_on sep s'
      else
        match split_on sep s' with
        | t :: ts => String c t :: ts
        | [] => [String c EmptyString]
        end
  end.

(** The lines of a text as iteration over a file opened in text mode
    yields them: every line keeps its terminator, and the terminators
    CR LF and CR are translated to LF. *)
Fixpoint lines_of (s : string) : list string :=
  match s with
  | EmptyString => []
  | String c s' =>
      if Ascii.eqb c "010" then nl :: lines_of s'
      else if Ascii.eqb c "013" then
        match s' with
        | String d s'' =>
            if Ascii.eqb d "010" then nl :: lines_of s''
            else nl :: lines_of s'
        | EmptyString => [nl]
        end
      else
        match lines_of s' with
        | t :: ts => String c t :: ts
        | [] => [String c EmptyString]
        end
  end.

(** [str(n)] for a non-negative integer. *)
Definition str_of_N (n : N) : string :=
  NilZero.string_of_uint (N.to_uint n).

Definition str_of_nat (n : nat) : string := str_of_N (N.of_nat n).

(** [f"{z}"] for an integer of either sign. *)
Definition str_of_Z (z : Z) : string :=
  match z with
  | Zneg p => String "-" (str_of_N (Npos p))
  | _ => str_of_N (Z.to_N z)
  end.

Fixpoint repeat_char (c : ascii) (n : nat) : string :=
  match n with
  | O => EmptyString
  | S n' => String c (repeat_char c n')
  end.

(** [f"{n:04d}"] for a non-negative integer: zero padding to width 4. *)
Definition format_04d (n : nat) : string :=
  let s := str_of_nat n in
  repeat_char "0" (4 - String.length s) +:+ s.

End PyStr.

(** ** Python floats (IEEE 754 binary64) *)

Module PyFloat.
Import PyStr.
Local Open Scope Z_scope.

Definition prec : Z := 53.
Definition emax : Z := 1024.

Definition float := spec_float.

Definition float_eqb (x y : float) : bool :=
  match x, y with
  | S754_zero a, S754_zero b => Bool.eqb a b
  | S754_infinity a, S754_infinity b => Bool.eqb a b
  | S754_nan, S754_nan => true
  | S754_finite a m e, S754_finite b n f =>
      Bool.eqb a b && Pos.eqb m n && Z.eqb e f
  | _, _ => false
  end.

(** [x * y] on floats. *)
Definition float_mul (x y : float) : float := SFmul prec emax x y.

(** [x / y] on floats, for a divisor that is not zero. *)
Definition float_div (x y : float) : float := SFdiv prec emax x y.

(** The binary64 value nearest to [(-1)^neg * m * 10^e] (ties to even):
    what the correctly rounded string conversion of CPython yields for a
    decimal numeral. *)
Definition float_of_decimal (neg : bool) (m : Z) (e : Z) : float :=
  match m with
  | Zpos p =>
      match e with
      | Zneg k =>
          SFdiv prec emax (S754_finite neg p 0)
                          (S754_finite false (Pos.pow 10 k) 0)
      | Z0 => SFdiv prec emax (S754_finite neg p 0) (S754_finite false 1 0)
      | Zpos k =>
          SFdiv prec emax (S754_finite neg (p * Pos.pow 10 k) 0)
                          (S754_finite false 1 0)
      end
  | _ => S754_zero neg
  end.

(** Conversion of a Python [int] operand in mixed arithmetic. *)
Definition float_of_int (z : Z) : float :=
  float_of_decimal (z <? 0) (Z.abs z) 0.

(** *** [float(s)] *)

Definition digit_val (c : ascii) : option Z :=
  let n := Z.of_nat (nat_of_ascii c) in
  if (48 <=? n) && (n <=? 57) then Some (n - 48) else None.

Definition to_lower (c : ascii) : ascii :=
  let n := nat_of_ascii c in
  if ((65 <=? n) && (n <=? 90))%nat then ascii_of_nat (n + 32) else c.

Fixpoint lower (s : string) : string :=
  match s with
  | EmptyString => EmptyString
  | String c s' => String (to_lower c) (lower s')
  end.

(** The tail [(["_"] digit)*] of a digit part: the value read so far,
    the number of digits read so far, and the unread rest. *)
Fixpoint digits_tail (acc : Z) (n : Z) (s : string) : Z * Z * string :=
  match s with
  | EmptyString => (acc, n, s)
  | String c s' =>
      match digit_val c with
      | Some d => digits_tail (10 * acc + d) (n + 1) s'
      | None =>
          if Ascii.eqb c "_" then
            match s' with
            | String c' s'' =>
                match digit_val c' with
                | Some d => digits_tail (10 * acc + d) (n + 1) s''
                | None => (acc, n, s)
                end
            | EmptyString => (acc, n, s)
            end
          else (acc, n, s)
      end
  end.

(** [digitpart ::= digit (["_"] digit)*], continuing the value [acc]. *)
Definition digitpart (acc : Z) (s : string) : option (Z * Z * string) :=
  match s with
  | String c s' =>
      match digit_val c with
      | Some d => Some (digits_tail (10 * acc + d) 1 s')
      | None => None
      end
  | EmptyString => None
  end.

(** [number ::= [digitpart] "." digitpart | digitpart ["."]]:
    the digits as an integer, the count of fractional digits, the rest. *)
Definition number (s : string) : option (Z * Z * string) :=
  match digitpart 0 s with
  | Some (m, _, String "." s') =>
      match digitpart m s' with
      | Some (m', k, r) => Some (m', k, r)
      | None => Some (m, 0, s')
      end
  | Some (m, _, r) => Some (m, 0, r)
  | None =>
      match s with
      | String "." s' => digitpart 0 s'
      | _ => None
      end
  end.

(** [exponent ::= ("e" | "E") [sign] digitpart], absent at the end of
    the numeral. *)
Definition exponent (s : string) : option Z :=
  match s with
  | EmptyString => Some 0
  | String c s' =>
      if Ascii.eqb (to_lower c) "e" then
        match s' with
        | String "-" s'' =>
            match digitpart 0 s'' with
            | Some (x, _, EmptyString) => Some (- x)
            | _ => None
            end
        | String "+" s'' =>
            match digitpart 0 s'' with
            | Some (x, _, EmptyString) => Some x
            | _ => None
            end
        | _ =>
            match digitpart 0 s' with
            | Some (x, _, EmptyString) => Some x
            | _ => None
            end
        end
      else None
  end.

Definition absfloatvalue (neg : bool) (s : string) : option float :=
  let l := lower s in
  if String.eqb l "inf" || String.eqb l "infinity" then
    Some (S754_infinity neg)
  else if String.eqb l "nan" then Some S754_nan
  else
    match number s with
    | Some (m, k, r) =>
        match exponent r with
        | Some x => Some (float_of_decimal neg m (x - k))
        | None => None
        end
    | None => None
    end.

(** The blanks [float] ignores around a numeral: the ASCII white space of C
    and the two further spaces below U+0100. The separators U+001C..U+001F,
    white space for [str.split], are not among them. *)
Definition is_float_space (c : ascii) : bool :=
  let n := nat_of_ascii c in
  (((9 <=? n) && (n <=? 13)) || (n =? 32) || (n =? 133) || (n =? 160))%nat.

(** [float(s)]; [None] stands for the [ValueError] Python raises. *)
Definition float_of_string (s : string) : option float :=
  match lstrip_by is_float_space (rstrip_by is_float_space s) with
  | String "-" s' => absfloatvalue true s'
  | String "+" s' => absfloatvalue false s'
  | s' => absfloatvalue false s'
  end.

(** *** [repr(x)] *)

Definition Zlen (s : string) : Z := Z.of_nat (String.length s).

(** The magnitude of a finite float [m * 2^e] as a fraction. *)
Definition fraction_of (m : positive) (e : Z) : Z * Z :=
  match e with
  | Zneg k => (Zpos m, Zpos (Pos.pow 2 k))
  | _ => (Zpos m * 2 ^ e, 1)
  end.

(** The decimal exponent [E] of a positive fraction:
    [10^E <= num/den < 10^(E+1)]. *)
Definition decimal_exponent (num den : Z) : Z :=
  if den <=? num then Zlen (str_of_Z (num / den)) - 1
  else
    let d := Zlen (str_of_Z (den / num)) in
    if num * 10 ^ (d - 1) =? den then - (d - 1) else - d.

(** [num/den * 10^s] as a fraction. *)
Definition scale10 (num den s : Z) : Z * Z :=
  if 0 <=? s then (num * 10 ^ s, den) else (num, den * 10 ^ (- s)).

(** The two decimals of [n] significant digits that enclose [num/den],
    as integers at the scale [10^(E+1-n)], and the one nearer to
    [num/den] (last digit even on a tie). *)
Definition enclosing (num den E n : Z) : Z * Z * Z :=
  let '(a, b) := scale10 num den (n - 1 - E) in
  let q := a / b in
  let r := a mod b in
  let nearest :=
    match 2 * r ?= b with
    | Lt => q
    | Gt => q + 1
    | Eq => if Z.even q then q else q + 1
    end in
  (q, q + 1, nearest).

(** The decimal of [n] significant digits that reads back as [x], if one
    exists; of two, the one nearer to [x]. *)
Definition round_trip_at (x : float) (num den E n : Z) : option Z :=
  let '(lo, hi, nearest) := enclosing num den E n in
  let back c := float_eqb (float_of_decimal false c (E + 1 - n)) x in
  match back lo, back hi with
  | true, true => Some nearest
  | true, false => Some lo
  | false, true => Some hi
  | false, false => None
  end.

(** The shortest digit string that reads back as [x], searched from [n]
    digits upwards; seventeen digits always identify a binary64. *)
Fixpoint shortest (fuel : nat) (x : float) (num den E n : Z) : Z * Z :=
  match fuel with
  | O => (snd (enclosing num den E n), n)
  | S fuel' =>
      match round_trip_at x num den E n with
      | Some c => (c, n)
      | None => shortest fuel' x num den E (n + 1)
      end
  end.

Fixpoint rstrip_zeros (s : string) : string :=
  match s with
  | EmptyString => EmptyString
  | String c s' =>
      match rstrip_zeros s' with
      | EmptyString =>
          if Ascii.eqb c "0" then EmptyString else String c EmptyString
      | r => String c r
      end
  end.

(** The digits and the position of the decimal point, [0.d1d2... * 10^decpt],
    of the shortest decimal that reads back as the positive float. *)
Definition shortest_digits (m : positive) (e : Z) : string * Z :=
  let '(num, den) := fraction_of m e in
  let E := decimal_exponent num den in
  let '(c, n) := shortest 16 (S754_finite false m e) num den E 1 in
  let ds := str_of_Z c in
  (rstrip_zeros ds, E + Zlen ds - n + 1).

Definition zeros (n : Z) : string := repeat_char "0" (Z.to_nat n).

(** The layout of [repr]: exponent notation when the decimal point falls
    more than three places before or more than sixteen places after the
    first digit. *)
Definition layout (ds : string) (decpt : Z) : string :=
  let n := Zlen ds in
  if (decpt <=? -4) || (16 <? decpt) then
    let x := decpt - 1 in
    let xs := str_of_Z (Z.abs x) in
    String.substring 0 1 ds
    +:+ (if 1 <? n then "." +:+ String.substring 1 (Z.to_nat (n - 1)) ds
         else "")
    +:+ "e" +:+ (if x <? 0 then "-" else "+")
    +:+ (if Z.abs x <? 10 then "0" +:+ xs else xs)
  else if decpt <=? 0 then "0." +:+ zeros (- decpt) +:+ ds
  else if decpt <? n then
    String.substring 0 (Z.to_nat decpt) ds +:+ "."
    +:+ String.substring (Z.to_nat decpt) (Z.to_nat (n - decpt)) ds
  else ds +:+ zeros (decpt - n) +:+ ".0".

(** [repr(x)], which is also [str(x)] and [f"{x}"]. *)
Definition float_repr (x : float) : string :=
  match x with
  | S754_zero s => if s then "-0.0" else "0.0"
  | S754_infinity s => if s then "-inf" else "inf"
  | S754_nan => "nan"
  | S754_finite s m e =>
      let '(ds, decpt) := shortest_digits m e in
      (if s then "-" else "") +:+ layout ds decpt
  end.

End PyFloat.

(** ** Exceptions and results *)

Inductive exn : Type :=
  | SystemExit (code : option Z)
  | ValueError
  | IndexError
  | FileNotFoundError.

Inductive result (A : Type) : Type :=
  | Ok (a : A)
  | Raise (e : exn).

Arguments Ok {A} a.
Arguments Raise {A} e.

#[export] Instance result_ret : MRet result := fun A a => Ok a.

#[export] Instance result_bind : MBind result := fun A B f r =>
  match r with
  | Ok a => f a
  | Raise e => Raise e
  end.

(** [sys.exit()] with no argument raises [SystemExit] with code [None]. *)
Definition sys_exit {A : Type} : result A := Raise (SystemExit None).

(** The exit status of the interpreter: 0 after a normal end and after
    [SystemExit] with code [None], the low byte of an integer code, and 1
    after any other exception that nothing catches. *)
Definition exit_status {A : Type} (r : result A) : Z :=
  match r with
  | Ok _ => 0
  | Raise (SystemExit None) => 0
  | Raise (SystemExit (Some n)) => Z.land n 255
  | Raise _ => 1
  end.

Definition is_ok {A : Type} (r : result A) : bool :=
  match r with
  | Ok _ => true
  | Raise _ => false
  end.

(** ** The program *)

Module NWGeom.
Import PyStr PyFloat.

(** *** class Geometry *)

Record Geometry : Type := mkGeometry {
  section : option string;
  lattice : option string;
  coords : list string;
  source : string;
  count : nat
}.

(** [l[i]] *)
Definition item (l : list string) (i : nat) : result string :=
  match l !! i with
  | Some x => Ok x
  | None => Raise IndexError
  end.

(** [float(s)] *)
Definition to_float (s : string) : result float :=
  match float_of_string s with
  | Some x => Ok x
  | None => Raise ValueError
  end.

(** The [if units == ...] chain at the head of [__init__]. The literal
    [10] is an [int]; a product of a float with it converts it first. *)
Definition unit_factor (units : string) : result float :=
  if String.eqb units "au" then
    Ok (float_div (float_of_decimal false 10 (-1))
                  (float_of_decimal false 1889725989 (-9)))
  else if String.eqb units "angstrom" then
    Ok (float_of_decimal false 10 (-1))
  else if String.eqb units "nm" then
    Ok (float_of_int 10)
  else sys_exit.

(** The [ntokens == 6] branch: the formatted atom line. *)
Definition atom_line (fac : float) (tokens : list string) : result string :=
  t3 ← item tokens 3; x ← to_float t3;
  let xx := float_mul x fac in
  t4 ← item tokens 4; y ← to_float t4;
  let yy := float_mul y fac in
  t5 ← item tokens 5; z ← to_float t5;
  let zz := float_mul z fac in
  t1 ← item tokens 1;
  Ok (t1 +:+ " " +:+ float_repr xx +:+ " " +:+ float_repr yy
         +:+ " " +:+ float_repr zz).

(** The [for line in fp] loop of [__init__]: the coordinates collected
    and the lines left unread. *)
Fixpoint read_coords (fac : float) (coords : list string)
    (fp : list string) : result (list string * list string) :=
  match fp with
  | [] => Ok (coords, [])
  | line :: fp =>
      let tokens := split line in
      let ntokens := length tokens in
      if ntokens =? 0 then Ok (coords, fp)
      else if ntokens =? 6 then
        atom ← atom_line fac tokens;
        read_coords fac (coords ++ [atom]) fp
      else sys_exit
  end.

(** [Geometry(source, count, units, fp)]: the new object and the file
    position after the constructor has read from it. *)
Definition Geometry_init (source : string) (count : nat) (units : string)
    (fp : list string) : result (Geometry * list string) :=
  fac ← unit_factor units;
  '(coords, fp) ← read_coords fac [] fp;
  Ok ({| section := None; lattice := None; coords := coords;
         source := source; count := count |}, fp).

Definition set_section (self : Geometry) (section : string) : Geometry :=
  {| section := Some section; lattice := lattice self;
     coords := coords self; source := source self; count := count self |}.

Definition set_lattice (self : Geometry) (lattice : string) : Geometry :=
  {| section := section self; lattice := Some lattice;
     coords := coords self; source := source self; count := count self |}.

Definition get_source (self : Geometry) : string := source self.

Definition get_count (self : Geometry) : nat := count self.

(** The truth value of an attribute that is [None] or a [str]. *)
Definition truthy (o : option string) : bool :=
  match o with
  | Some (String _ _) => true
  | _ => false
  end.

(** [self.write(fp)]: [fp] is the text written to the file so far. *)
Definition write (self : Geometry) (fp : string) : string :=
  let natoms := length (coords self) in
  let comment := "" in
  let comment :=
    if truthy (lattice self) then
      comment +:+ "Lattice=" +:+ default "" (lattice self)
              +:+ " Properties=species:S:1:pos:R:3"
    else comment in
  let fp := fp +:+ (str_of_nat natoms +:+ nl) in
  let fp := fp +:+ (comment +:+ nl) in
  foldl (fun fp atom => fp +:+ (atom +:+ nl)) fp (coords self).

(** *** Reading *)

(** [skip_lines(fp, num)]; [readline] at the end of the file reads
    nothing. *)
Fixpoint skip_lines (fp : list string) (num : nat) : list string :=
  match num with
  | O => fp
  | S num => skip_lines (tail fp) num
  end.

(** The constructor only moves the file position forwards. *)
Lemma read_coords_length fac coords fp coords' fp' :
  read_coords fac coords fp = Ok (coords', fp') -> length fp' <= length fp.
Proof.
  revert coords. induction fp as [|line fp IH]; intros coords; simpl.
  - intros [= _ <-]. simpl. lia.
  - destruct (length (split line) =? 0); [intros [= _ <-]; lia|].
    destruct (length (split line) =? 6); [|discriminate].
    destruct (atom_line fac (split line)) as [atom|e]; simpl; [|discriminate].
    intros H. apply IH in H. lia.
Qed.

Lemma Geometry_init_length source count units fp g fp' :
  Geometry_init source count units fp = Ok (g, fp') ->
  length fp' <= length fp.
Proof.
  unfold Geometry_init.
  destruct (unit_factor units) as [fac|e]; simpl; [|discriminate].
  destruct (read_coords fac [] fp) as [[cs r]|e] eqn:E; simpl; [|discriminate].
  intros [= _ <-]. eapply read_coords_length, E.
Qed.

Lemma skip_lines_length fp num : length (skip_lines fp num) <= length fp.
Proof.
  revert fp. induction num as [|num IH]; intros fp; simpl; [lia|].
  specialize (IH (tail fp)). destruct fp; simpl in *; lia.
Qed.

(** The [for line in fp] loop of [append_geometries]. The constructor
    reads from the same file object, so the loop resumes at the line
    after the last one the constructor consumed. *)
Equations? append_loop (geom_in : list Geometry) (filename : string)
    (count : nat) (fp : list string) : result (list Geometry)
    by wf (length fp) lt :=
  append_loop geom_in filename count [] := Ok geom_in;
  append_loop geom_in filename count (line :: fp)
    with startswith (strip line) "Output coordinates in angstroms" := {
    | true
        with inspect (Geometry_init filename (count + 1) "angstrom"
                                    (skip_lines fp 3)) := {
        | exist _ (Ok (g, fp')) _ =>
            append_loop (geom_in ++ [g]) filename (count + 1) fp'
        | exist _ (Raise e) _ => Raise e };
    | false
        with startswith (strip line) "Output coordinates in a.u." := {
        | true
            with inspect (Geometry_init filename (count + 1) "au"
                                        (skip_lines fp 3)) := {
            | exist _ (Ok (g, fp')) _ =>
                append_loop (geom_in ++ [g]) filename (count + 1) fp'
            | exist _ (Raise e) _ => Raise e };
        | false => append_loop geom_in filename count fp } }.
Proof.
  all: try match goal with
           | H : Geometry_init _ _ _ _ = Ok _ |- _ =>
               apply Geometry_init_length in H
           end.
  all: pose proof (skip_lines_length fp 3) as Hskip; simpl in Hskip; lia.
Qed.

(** [append_geometries(geom_in, filename, fp)] *)
Definition append_geometries (geom_in : list Geometry) (filename : string)
    (fp : list string) : result (list Geometry) :=
  let count := 0 in
  append_loop geom_in filename count fp.

(** The file system: path names to contents. *)
Abbreviation filesystem := (gmap string string).

(** [open(file)]: the lines of the file, or [FileNotFoundError]. *)
Definition open_r (files : filesystem) (file : string)
    : result (list string) :=
  match files !! file with
  | Some text => Ok (lines_of text)
  | None => Raise FileNotFoundError
  end.

(** The [for file in files] loop of [run_extractor]. *)
Fixpoint run_extractor_loop (fs : filesystem) (geometries : list Geometry)
    (files : list string) : result (list Geometry) :=
  match files with
  | [] => Ok geometries
  | file :: files =>
      fp ← open_r fs file;
      geometries ← append_geometries geometries file fp;
      run_extractor_loop fs geometries files
  end.

(** [run_extractor(files)] *)
Definition run_extractor (fs : filesystem) (files : list string)
    : result (list Geometry) :=
  let geometries := [] in
  run_extractor_loop fs geometries files.

(** *** Writing *)

(** [path[-1]] on a list that [str.split(sep)] returned; such a list is
    never empty. *)
Definition last_item (l : list string) : string := List.last l "".

(** [basename[0]], likewise. *)
Definition first_item (l : list string) : string := List.hd "" l.

Definition get_basename (filename : string) : string :=
  let path := split_on "/" filename in
  let basename := split_on "." (last_item path) in
  first_item basename.

(** [with open(filename, "w") as fp: body(fp)]: the file is truncated or
    created, and holds what [body] wrote when it is closed. *)
Definition with_open_w (fs : filesystem) (filename : string)
    (body : string -> string) : filesystem :=
  <[filename := body ""]> fs.

(** [with open(filename, "a") as fp: body(fp)]: writes go after the
    present contents; a missing file is created. *)
Definition with_open_a (fs : filesystem) (filename : string)
    (body : string -> string) : filesystem :=
  <[filename := body (default "" (fs !! filename))]> fs.

Fixpoint write_separate (prefix : string) (geometries : list Geometry)
    (fs : filesystem) : filesystem :=
  match geometries with
  | [] => fs
  | geometry :: geometries =>
      let source := get_source geometry in
      let number := get_count geometry in
      let basename := get_basename source in
      let filename :=
        prefix +:+ basename +:+ "_" +:+ format_04d number +:+ ".xyz" in
      write_separate prefix geometries
        (with_open_w fs filename (write geometry))
  end.

(** The [for geometry in geometries] loop of [write_together]. *)
Fixpoint write_together_loop (prefix : string) (oldfilename : string)
    (geometries : list Geometry) (fs : filesystem) : filesystem :=
  match geometries with
  | [] => fs
  | geometry :: geometries =>
      let source := get_source geometry in
      let number := get_count geometry in
      let basename := get_basename source in
      let filename := prefix +:+ basename +:+ ".xyz" in
      if String.eqb oldfilename filename then
        write_together_loop prefix oldfilename geometries
          (with_open_a fs filename (write geometry))
      else
        let oldfilename := filename in
        write_together_loop prefix oldfilename geometries
          (with_open_w fs filename (write geometry))
  end.

Definition write_together (prefix : string) (geometries : list Geometry)
    (fs : filesystem) : filesystem :=
  let oldfilename := "" in
  write_together_loop prefix oldfilename geometries fs.

Definition write_all_together (prefix : string)
    (geometries : list Geometry) (fs : filesystem) : filesystem :=
  let filename := prefix +:+ ".xyz" in
  with_open_w fs filename
    (fun fp => foldl (fun fp geometry => write geometry fp) fp geometries).

(** *** The script *)

(** The dictionary [parse_args] returns. The parser declares [--together]
    as [store_true] with default [True], so every dictionary it returns
    has [together = true]. *)
Record Args : Type := mkArgs {
  nwofilenames : list string;
  prefix : string;
  separate : bool;
  together : bool;
  alltogether : bool
}.

(** The body under [if __name__ == "__main__"], after [parse_args]: how
    the run ends, and the file system it leaves. *)
Definition main (args : Args) (fs : filesystem)
    : result unit * filesystem :=
  match run_extractor fs (nwofilenames args) with
  | Raise e => (Raise e, fs)
  | Ok geometries =>
      let prefix := prefix args in
      let fs :=
        if separate args then write_separate prefix geometries fs else fs in
      let fs :=
        if together args then write_together prefix geometries fs else fs in
      let fs :=
        if alltogether args then write_all_together prefix geometries fs
        else fs in
      (Ok tt, fs)
  end.

End NWGeom.

(** ** Vocabulary of the specification *)

Module Spec.
Import PyStr PyFloat NWGeom.

(** The unit system a line announces, if it is a marker line. The test for
    the angstrom phrase comes first. *)
Definition marker_units (line : string) : option string :=
  if startswith (strip line) "Output coordinates in angstroms" then
    Some "angstrom"
  else if startswith (strip line) "Output coordinates in a.u." then
    Some "au"
  else None.

(** The serialization of one record: what [write] sends to an empty file. *)
Definition serialize (g : Geometry) : string := write g "".

(** The output file name of a record under the Together strategy. *)
Definition together_name (prefix : string) (g : Geometry) : string :=
  prefix +:+ get_basename (source g) +:+ ".xyz".

(** The file name the loop of [write_together] remembers after a list of
    records: that of the last record, or the one it started with. *)
Definition last_name (prefix old : string) (gs : list Geometry) : string :=
  match last gs with
  | Some g => together_name prefix g
  | None => old
  end.

(** The records one input file contributes: the file exists and scanning it
    from an empty list ends normally with these records. *)
Definition file_records (fs : filesystem) (file : string)
    (grp : list Geometry) : Prop :=
  exists text,
    fs !! file = Some text /\
    append_geometries [] file (lines_of text) = Ok grp.

(** The records with source [s] stand next to one another in [gs]. *)
Definition adjacent_source (s : string) (gs : list Geometry) : Prop :=
  exists before run after,
    gs = before ++ run ++ after /\
    Forall (fun g => source g = s) run /\
    Forall (fun g => source g <> s) before /\
    Forall (fun g => source g <> s) after.

(** A coordinate line read in source units: the element symbol and the
    three coordinates. *)
Record Atom : Type := mkAtom {
  symbol : string;
  xcoord : float;
  ycoord : float;
  zcoord : float
}.

(** The line splits into six tokens, of which the one at index 1 is the
    symbol and those at indices 3, 4 and 5 read as the coordinates. *)
Definition coord_line (line : string) (a : Atom) : Prop :=
  exists t0 t2 t3 t4 t5,
    split line = [t0; symbol a; t2; t3; t4; t5] /\
    float_of_string t3 = Some (xcoord a) /\
    float_of_string t4 = Some (ycoord a) /\
    float_of_string t5 = Some (zcoord a).

(** The atom line of the record: the symbol, then each coordinate times the
    unit factor, as [repr] prints the products. *)
Definition atom_text (fac : float) (a : Atom) : string :=
  symbol a +:+ " " +:+ float_repr (float_mul (xcoord a) fac)
           +:+ " " +:+ float_repr (float_mul (ycoord a) fac)
           +:+ " " +:+ float_repr (float_mul (zcoord a) fac).

(** The line that ends a block, if the file does not end first, is
    blank. *)
Definition block_end (rest : list string) : Prop :=
  match rest with
  | [] => True
  | line :: _ => split line = []
  end.

(** Where the scan of a file stands between two lines: looking for a
    marker, or inside a geometry with [skip] header lines still to pass
    ([skip = 0]: reading coordinate lines). *)
Inductive scan_mode : Type :=
  | Scanning
  | InGeometry (skip : nat).

(** Whether the tokens at indices 3, 4 and 5 all read as floats. *)
Definition coords_parse (tokens : list string) : bool :=
  match tokens !! 3 ≫= float_of_string,
        tokens !! 4 ≫= float_of_string,
        tokens !! 5 ≫= float_of_string with
  | Some _, Some _, Some _ => true
  | _, _, _ => false
  end.

(** What one line does to the scan: a marker opens a geometry with three
    header lines; a header line is passed over; in a block a blank line ends
    the geometry, a line of six tokens with readable coordinates continues
    it, a line of six tokens with an unreadable coordinate raises
    [ValueError], and any other line exits. *)
Definition scan_step (m : scan_mode) (line : string) : result scan_mode :=
  match m with
  | Scanning =>
      match marker_units line with
      | Some _ => Ok (InGeometry 3)
      | None => Ok Scanning
      end
  | InGeometry (S skip) => Ok (InGeometry skip)
  | InGeometry O =>
      let tokens := split line in
      if length tokens =? 0 then Ok Scanning
      else if length tokens =? 6 then
        if coords_parse tokens then Ok (InGeometry 0) else Raise ValueError
      else Raise (SystemExit None)
  end.

Fixpoint scan (m : scan_mode) (lines : list string) : result scan_mode :=
  match lines with
  | [] => Ok m
  | line :: lines => m' ← scan_step m line; scan m' lines
  end.

(** The exception that ends a scan, if one does. *)
Definition outcome (m : scan_mode) (lines : list string) : option exn :=
  match scan m lines with
  | Ok _ => None
  | Raise e => Some e
  end.

(** The file exists and its scan meets no malformed line. *)
Definition scans_clean (fs : filesystem) (file : string) : Prop :=
  exists text,
    fs !! file = Some text /\ outcome Scanning (lines_of text) = None.

(** The text of a list of lines, each followed by exactly one newline. *)
Definition lines_text (ls : list string) : string :=
  foldr (fun l acc => l +:+ nl +:+ acc) "" ls.

(** The concatenation of a list of texts. *)
Definition concat_text (ts : list string) : string :=
  foldr String.append "" ts.


(** The comment line with the empty lattice string counted as not set. *)
Definition comment_if_nonempty (lattice : option string) : string :=
  match lattice with
  | Some (String c l) =>
      "Lattice=" +:+ String c l +:+ " Properties=species:S:1:pos:R:3"
  | _ => ""
  end.

(** Whether the character occurs in the string. *)
Fixpoint has_char (c : ascii) (s : string) : bool :=
  match s with
  | EmptyString => false
  | String d s' => Ascii.eqb d c || has_char c s'
  end.

(** The output file name of a record under the Separate strategy. *)
Definition separate_name (prefix : string) (g : Geometry) : string :=
  prefix +:+ get_basename (source g) +:+ "_" +:+ format_04d (count g)
         +:+ ".xyz".

(** The output file name of the All-together strategy. *)
Definition all_together_name (prefix : string) : string := prefix +:+ ".xyz".

(** The number a string of decimal digits denotes (0 for any other
    string). *)
Definition digits_value (s : string) : nat :=
  match NilZero.uint_of_string s with
  | Some d => N.to_nat (N.of_uint d)
  | None => 0
  end.

(** The string holds neither a line feed nor a carriage return. *)
Definition newline_free (s : string) : bool :=
  negb (has_char "010" s) && negb (has_char "013" s).



(** Every character of [t] occurs in [alphabet]. *)
Fixpoint chars_in (t alphabet : string) : bool :=
  match t with
  | EmptyString => true
  | String d t' => has_char d alphabet && chars_in t' alphabet
  end.

(** The characters [repr] of a float is made of. *)
Definition repr_alphabet : string := "0123456789-+.einfa".

(** The text of a list of lines read back as a file: each line with its
    newline. *)
Definition with_newlines (ls : list string) : list string :=
  map (fun l => l +:+ nl) ls.

End Spec.

(** ** Sample inputs *)

Module Samples.
Import PyStr PyFloat NWGeom.

Definition ln (s : string) : string := s +:+ nl.

Definition angstrom_marker : string :=
  ln "    Output coordinates in angstroms (scale by  1.889725989 to convert to a.u.)".

Definition au_marker : string :=
  ln "    Output coordinates in a.u. (scale by  1.000000000 to convert to a.u.)".

Definition header2 : string :=
  ln "  No.       Tag          Charge          X              Y              Z".

Definition header3 : string :=
  ln " ---- ---------------- ---------- -------------- -------------- --------------".

(** A log with one block in angstroms and one in atomic units. *)
Definition log_a : string :=
  ln " NWChem Geometry Optimization"
  +:+ angstrom_marker +:+ nl +:+ header2 +:+ header3
  +:+ ln "    1  Li  0  1.0 2.0 3.0"
  +:+ nl
  +:+ ln "      Atomic Mass"
  +:+ au_marker +:+ nl +:+ header2 +:+ header3
  +:+ ln "    1 H 1.0000 0.0 0.0 0.7"
  +:+ ln "    2 H 1.0000 0.0 0.0 -0.7"
  +:+ nl.

(** A log with one block, ended by the end of the file. *)
Definition log_b : string :=
  angstrom_marker +:+ nl +:+ header2 +:+ header3
  +:+ ln "    1 He 2.0000 0.5 0.25 -1.5".

(** A log whose block holds a line of five tokens. *)
Definition log_bad : string :=
  angstrom_marker +:+ nl +:+ header2 +:+ header3
  +:+ ln "    1 He 2.0000 0.5 0.25 -1.5"
  +:+ ln "    2 He 2.0000 0.5 0.25"
  +:+ nl.

Definition sample_fs : filesystem :=
  <["run/a.out" := log_a]> (<["run/b.out" := log_b]>
    (<["run/bad.out" := log_bad]> ∅)).

Definition geom_a1 : Geometry :=
  mkGeometry None None ["Li 1.0 2.0 3.0"] "run/a.out" 1.

Definition geom_a2 : Geometry :=
  mkGeometry None None
    ["H 0.0 0.0 0.37042407421746054"; "H 0.0 0.0 -0.37042407421746054"]
    "run/a.out" 2.

Definition geom_b1 : Geometry :=
  mkGeometry None None ["He 0.5 0.25 -1.5"] "run/b.out" 1.

(** The second block of [log_a], as lines and as parsed atoms. *)
Definition block_a2 : list string :=
  [ln "    1 H 1.0000 0.0 0.0 0.7"; ln "    2 H 1.0000 0.0 0.0 -0.7"].

Definition atoms_a2 : list Spec.Atom :=
  [Spec.mkAtom "H" (S754_zero false) (S754_zero false)
     (float_of_decimal false 7 (-1));
   Spec.mkAtom "H" (S754_zero false) (S754_zero false)
     (float_of_decimal true 7 (-1))].

Definition fac_au : float :=
  float_div (float_of_decimal false 10 (-1))
            (float_of_decimal false 1889725989 (-9)).

(** The lines of [log_bad] up to the malformed one. *)
Definition bad_prefix : list string :=
  [angstrom_marker; nl; header2; header3;
   ln "    1 He 2.0000 0.5 0.25 -1.5"].

Definition bad_line : string := ln "    2 He 2.0000 0.5 0.25".

(** A command line that names a clean log, the malformed one, and a file
    that does not exist. *)
Definition bad_args : Args :=
  mkArgs ["run/a.out"; "run/bad.out"; "run/missing.out"] "out_"
    true true true.

(** A log whose block holds a coordinate that does not read as a float. *)
Definition log_unreadable : string :=
  angstrom_marker +:+ nl +:+ header2 +:+ header3
  +:+ ln "    1 He 2.0000 0.5 0.25 -1.5"
  +:+ ln "    2 He 2.0000 0.5 ***** -1.5"
  +:+ nl.

Definition unreadable_line : string := ln "    2 He 2.0000 0.5 ***** -1.5".

(** A log without any geometry. *)
Definition log_plain : string :=
  ln " NWChem Task" +:+ ln "  No Output coordinates in angstroms here".

Definition sample_fs_more : filesystem :=
  <["run/unreadable.out" := log_unreadable]>
    (<["run/plain.out" := log_plain]> sample_fs).

End Samples.

(** ** Properties *)

Module Props.
Import PyStr PyFloat NWGeom Spec Samples.

(** *** The scanning loop *)

Lemma append_loop_nil geom_in filename count :
  append_loop geom_in filename count [] = Ok geom_in.
Proof. now simp append_loop. Qed.

Lemma append_loop_cons geom_in filename count line fp :
  append_loop geom_in filename count (line :: fp) =
  match marker_units line with
  | Some units =>
      match Geometry_init filename (count + 1) units (skip_lines fp 3) with
      | Ok (g, fp') => append_loop (geom_in ++ [g]) filename (count + 1) fp'
      | Raise e => Raise e
      end
  | None => append_loop geom_in filename count fp
  end.
Proof.
  simp append_loop. unfold marker_units.
  destruct (startswith (strip line) "Output coordinates in angstroms");
    simpl.
  - destruct (Geometry_init filename (count + 1) "angstrom" _)
      as [[g fp']|e]; reflexivity.
  - destruct (startswith (strip line) "Output coordinates in a.u."); simpl.
    + destruct (Geometry_init filename (count + 1) "au" _)
        as [[g fp']|e]; reflexivity.
    + reflexivity.
Qed.

(** Induction along the iterations of the loop of [append_geometries]. *)
Lemma append_loop_ind (filename : string)
    (P : list Geometry -> nat -> list string -> Prop) :
  (forall gi c, P gi c []) ->
  (forall gi c line fp,
     marker_units line = None -> P gi c fp -> P gi c (line :: fp)) ->
  (forall gi c line fp units e,
     marker_units line = Some units ->
     Geometry_init filename (c + 1) units (skip_lines fp 3) = Raise e ->
     P gi c (line :: fp)) ->
  (forall gi c line fp units g fp',
     marker_units line = Some units ->
     Geometry_init filename (c + 1) units (skip_lines fp 3) = Ok (g, fp') ->
     P (gi ++ [g]) (c + 1) fp' -> P gi c (line :: fp)) ->
  forall gi c fp, P gi c fp.
Proof.
  intros Hnil Hskip Hraise Hgeom gi c fp.
  remember (length fp) as n eqn:Hn.
  revert gi c fp Hn.
  induction n as [n IH] using lt_wf_ind.
  intros gi c [|line fp] Hn; [apply Hnil|].
  simpl in Hn.
  destruct (marker_units line) as [units|] eqn:Hm.
  - destruct (Geometry_init filename (c + 1) units (skip_lines fp 3))
      as [[g fp']|e] eqn:Hg.
    + eapply Hgeom; eauto.
      apply (IH (length fp')); [|reflexivity].
      apply Geometry_init_length in Hg.
      pose proof (skip_lines_length fp 3). lia.
    + eapply Hraise; eauto.
  - apply Hskip; [assumption|].
    apply (IH (length fp)); [lia|reflexivity].
Qed.

Lemma Geometry_init_fields filename c units fp g fp' :
  Geometry_init filename c units fp = Ok (g, fp') ->
  source g = filename /\ count g = c /\ lattice g = None /\ section g = None.
Proof.
  unfold Geometry_init.
  destruct (unit_factor units) as [fac|e]; simpl; [|discriminate].
  destruct (read_coords fac [] fp) as [[cs r]|e]; simpl; [|discriminate].
  intros [= <- _]. simpl. auto.
Qed.

(** The records already in the list pass through the loop untouched, and
    the loop does not look at them. *)
Lemma append_loop_shift filename gi0 c fp gi :
  (exists t, append_loop gi0 filename c fp = Ok (gi0 ++ t) /\
             append_loop gi filename c fp = Ok (gi ++ t)) \/
  (exists e, append_loop gi0 filename c fp = Raise e /\
             append_loop gi filename c fp = Raise e).
Proof.
  revert gi.
  apply (append_loop_ind filename
    (fun gi0 c fp => forall gi,
      (exists t, append_loop gi0 filename c fp = Ok (gi0 ++ t) /\
                 append_loop gi filename c fp = Ok (gi ++ t)) \/
      (exists e, append_loop gi0 filename c fp = Raise e /\
                 append_loop gi filename c fp = Raise e))).
  - intros g0 c0 gi. left. exists []. rewrite !append_loop_nil.
    now rewrite !app_nil_r.
  - intros g0 c0 line fp0 Hm IH gi. rewrite !append_loop_cons, Hm. apply IH.
  - intros g0 c0 line fp0 units e Hm Hg gi. right. exists e.
    now rewrite !append_loop_cons, Hm, Hg.
  - intros g0 c0 line fp0 units g fp' Hm Hg IH gi.
    rewrite !append_loop_cons, Hm, Hg.
    destruct (IH (gi ++ [g])) as [(t & E1 & E2)|(e & E1 & E2)].
    + left. exists (g :: t). rewrite E1, E2.
      now rewrite <- !app_assoc.
    + right. exists e. now rewrite E1, E2.
Qed.

Lemma append_loop_prefix filename gi c fp :
  append_loop gi filename c fp =
  match append_loop [] filename c fp with
  | Ok new => Ok (gi ++ new)
  | Raise e => Raise e
  end.
Proof.
  destruct (append_loop_shift filename [] c fp gi)
    as [(t & -> & ->)|(e & -> & ->)]; reflexivity.
Qed.

(** Within one file the records appended carry the file's name and the
    numbers [count + 1], [count + 2], ... in the order of discovery. *)
Lemma append_loop_counts filename gi c fp out :
  append_loop gi filename c fp = Ok out ->
  exists new,
    out = gi ++ new /\
    map count new = seq (c + 1) (length new) /\
    Forall (fun g => source g = filename) new.
Proof.
  revert out.
  apply (append_loop_ind filename
    (fun gi c fp => forall out,
       append_loop gi filename c fp = Ok out ->
       exists new,
         out = gi ++ new /\
         map count new = seq (c + 1) (length new) /\
         Forall (fun g => source g = filename) new)).
  - intros g0 c0 out. rewrite append_loop_nil. intros [= <-].
    exists []. now rewrite app_nil_r.
  - intros g0 c0 line fp0 Hm IH out. rewrite append_loop_cons, Hm. apply IH.
  - intros g0 c0 line fp0 units e Hm Hg out.
    rewrite append_loop_cons, Hm, Hg. discriminate.
  - intros g0 c0 line fp0 units g fp' Hm Hg IH out.
    rewrite append_loop_cons, Hm, Hg. intros H.
    destruct (IH out H) as (new & -> & Hc & Hs).
    apply Geometry_init_fields in Hg as (Hsrc & Hcnt & _).
    exists (g :: new). rewrite <- app_assoc. split; [reflexivity|].
    split.
    + simpl. rewrite Hcnt, Hc. do 2 f_equal. lia.
    + now constructor.
Qed.

(** *** The extractor over a list of files *)

Lemma append_geometries_prefix gi filename fp :
  append_geometries gi filename fp =
  match append_geometries [] filename fp with
  | Ok new => Ok (gi ++ new)
  | Raise e => Raise e
  end.
Proof. unfold append_geometries. apply append_loop_prefix. Qed.

Lemma append_geometries_counts filename fp grp :
  append_geometries [] filename fp = Ok grp ->
  map count grp = seq 1 (length grp) /\
  Forall (fun g => source g = filename) grp.
Proof.
  unfold append_geometries. intros H.
  apply append_loop_counts in H as (new & -> & Hc & Hs). auto.
Qed.

Lemma file_records_source fs file grp :
  file_records fs file grp -> Forall (fun g => source g = file) grp.
Proof. intros (text & _ & H). now apply append_geometries_counts in H. Qed.

(** The loop over the files appends each file's records as one block, in
    the order of the argument list. *)
Lemma run_extractor_loop_groups fs files gi out :
  run_extractor_loop fs gi files = Ok out <->
  exists groups,
    Forall2 (file_records fs) files groups /\ out = gi ++ concat groups.
Proof.
  revert gi out. induction files as [|file files IH]; intros gi out; simpl.
  - split.
    + intros [= <-]. exists []. split; [constructor|].
      simpl. now rewrite app_nil_r.
    + intros (groups & HF & ->). inversion HF; subst. simpl.
      now rewrite app_nil_r.
  - unfold open_r. split.
    + destruct (fs !! file) as [text|] eqn:Hfile; simpl; [|discriminate].
      rewrite append_geometries_prefix.
      destruct (append_geometries [] file (lines_of text)) as [grp|e] eqn:Hg;
        simpl; [|discriminate].
      intros H. apply IH in H as (groups & HF & ->).
      exists (grp :: groups). split.
      * constructor; [|assumption]. now exists text.
      * simpl. now rewrite app_assoc.
    + intros (groups & HF & ->).
      inversion HF as [|f grp fs' groups' (text & Hfile & Hg) HF']; subst.
      rewrite Hfile. simpl. rewrite append_geometries_prefix, Hg. simpl.
      apply IH. exists groups'. split; [assumption|].
      simpl. now rewrite app_assoc.
Qed.

Lemma run_extractor_groups fs files gs :
  run_extractor fs files = Ok gs <->
  exists groups, Forall2 (file_records fs) files groups /\ gs = concat groups.
Proof. unfold run_extractor. apply run_extractor_loop_groups. Qed.

Lemma concat_groups_source fs files groups :
  Forall2 (file_records fs) files groups ->
  Forall (fun g => source g ∈ files) (concat groups).
Proof.
  induction 1 as [|file grp files groups Hr HF IH]; simpl; [constructor|].
  apply Forall_app. split.
  - apply file_records_source in Hr.
    eapply Forall_impl; [exact Hr|]. intros g <-. left.
  - eapply Forall_impl; [exact IH|]. intros g Hg. now right.
Qed.

Lemma concat_groups_adjacent fs files groups s :
  NoDup files ->
  Forall2 (file_records fs) files groups ->
  adjacent_source s (concat groups).
Proof.
  intros Hnd HF. revert Hnd.
  induction HF as [|file grp files groups Hr HF IH]; intros Hnd.
  - exists [], [], []. repeat split; constructor.
  - apply NoDup_cons in Hnd as [Hnotin Hnd]. simpl.
    destruct (decide (file = s)) as [->|Hne].
    + exists [], grp, (concat groups). split; [reflexivity|].
      split; [now apply file_records_source in Hr|].
      split; [constructor|].
      eapply Forall_impl; [exact (concat_groups_source _ _ _ HF)|].
      intros g Hg Heq. apply Hnotin. now rewrite <- Heq.
    + destruct (IH Hnd) as (before & run & after & E & Hrun & Hb & Ha).
      exists (grp ++ before), run, after. rewrite E.
      split; [now rewrite <- app_assoc|].
      split; [assumption|]. split; [|assumption].
      apply Forall_app. split; [|assumption].
      apply file_records_source in Hr.
      eapply Forall_impl; [exact Hr|]. now intros g ->.
Qed.

Lemma map_seq_lookup {A : Type} (f : A -> nat) (l : list A) c k x :
  map f l = seq c (length l) -> l !! k = Some x -> f x = c + k.
Proof.
  revert c k. induction l as [|y l IH]; intros c k; simpl; [discriminate|].
  intros [= Hy Hl]. destruct k as [|k]; simpl.
  - intros [= <-]. lia.
  - intros Hk. rewrite (IH (S c) k Hl Hk). lia.
Qed.

(** C4. For every list of input files that the extractor scans to the end,
    the records form one group per file, in the order of the files; within
    each group the records carry the file's name and the sequence indices
    1, 2, 3, ...: the counter restarts at 1 with each file and grows by one
    with each geometry, so the k-th geometry of a file has index k. *)
Theorem sequence_index_restarts_per_file
    (fs : filesystem) (files : list string) (gs : list Geometry) :
  run_extractor fs files = Ok gs ->
  exists groups,
    gs = concat groups /\
    Forall2 (fun file grp =>
               file_records fs file grp /\
               Forall (fun g => get_source g = file) grp /\
               map get_count grp = seq 1 (length grp) /\
               forall k g, grp !! k = Some g -> get_count g = k + 1)
            files groups.
Proof.
  intros H. apply run_extractor_groups in H as (groups & HF & ->).
  exists groups. split; [reflexivity|].
  eapply Forall2_impl; [exact HF|].
  intros file grp Hr. split; [assumption|].
  destruct Hr as (text & _ & Hg).
  apply append_geometries_counts in Hg as [Hc Hs].
  repeat split; try assumption.
  intros k g Hk. unfold get_count.
  rewrite (map_seq_lookup count grp 1 k g Hc Hk). lia.
Qed.

Lemma sequence_index_restarts_per_file_witness :
  exists groups,
    [geom_a1; geom_a2; geom_b1] = concat groups /\
    Forall2 (fun file grp =>
               file_records sample_fs file grp /\
               Forall (fun g => get_source g = file) grp /\
               map get_count grp = seq 1 (length grp) /\
               forall k g, grp !! k = Some g -> get_count g = k + 1)
            ["run/a.out"; "run/b.out"] groups.
Proof.
  apply (sequence_index_restarts_per_file sample_fs
           ["run/a.out"; "run/b.out"] [geom_a1; geom_a2; geom_b1]).
  vm_compute. reflexivity.
Defined.

(** C10, as amended. The record list the extractor returns is the
    concatenation of one group per entry of the file list, in the order of
    the list, each group being the records of that file in discovery order
    and all of them carrying the file's name. When no file name occurs twice
    in the list, all records that share a source are adjacent. *)
Theorem records_grouped_by_file
    (fs : filesystem) (files : list string) (gs : list Geometry) :
  run_extractor fs files = Ok gs ->
  (exists groups,
     gs = concat groups /\
     Forall2 (fun file grp =>
                file_records fs file grp /\
                Forall (fun g => get_source g = file) grp)
             files groups) /\
  (NoDup files -> forall s, adjacent_source s gs).
Proof.
  intros H. apply run_extractor_groups in H as (groups & HF & ->). split.
  - exists groups. split; [reflexivity|].
    eapply Forall2_impl; [exact HF|].
    intros file grp Hr. split; [assumption|].
    now apply file_records_source in Hr.
  - intros Hnd s. now apply (concat_groups_adjacent fs files).
Qed.

Lemma records_grouped_by_file_witness :
  (exists groups,
     [geom_a1; geom_a2; geom_b1] = concat groups /\
     Forall2 (fun file grp =>
                file_records sample_fs file grp /\
                Forall (fun g => get_source g = file) grp)
             ["run/a.out"; "run/b.out"] groups) /\
  (NoDup ["run/a.out"; "run/b.out"] ->
   forall s, adjacent_source s [geom_a1; geom_a2; geom_b1]).
Proof.
  apply (records_grouped_by_file sample_fs
           ["run/a.out"; "run/b.out"] [geom_a1; geom_a2; geom_b1]).
  vm_compute. reflexivity.
Defined.

(** C10 fails as stated: a file named twice in the argument list is scanned
    twice, and its two groups of records are separated by the records of the
    file between them. *)
Lemma records_grouped_by_file_counterexample :
  run_extractor sample_fs ["run/b.out"; "run/a.out"; "run/b.out"]
    = Ok [geom_b1; geom_a1; geom_a2; geom_b1] /\
  ~ adjacent_source "run/b.out" [geom_b1; geom_a1; geom_a2; geom_b1].
Proof.
  split; [vm_compute; reflexivity|].
  intros (before & run & after & E & Hrun & Hb & Ha).
  destruct before as [|x before].
  - simpl in E. destruct run as [|y run].
    + simpl in E. subst after. inversion Ha; subst. now apply H1.
    + injection E as <- E. destruct run as [|y run].
      * simpl in E. subst after.
        apply Forall_cons in Ha as [_ Ha].
        apply Forall_cons in Ha as [_ Ha].
        apply Forall_cons in Ha as [Ha _]. now apply Ha.
      * injection E as <- E. apply Forall_cons in Hrun as [_ Hrun].
        apply Forall_cons in Hrun as [Hrun _]. discriminate Hrun.
  - injection E as <- E. apply Forall_cons in Hb as [Hb _]. now apply Hb.
Qed.

(** *** Strings *)

Lemma str_app_cons (x : ascii) (a b : string) :
  String x a +:+ b = String x (a +:+ b).
Proof. reflexivity. Qed.

Lemma str_app_nil_l (a : string) : "" +:+ a = a.
Proof. reflexivity. Qed.

Lemma str_app_assoc (a b c : string) : (a +:+ b) +:+ c = a +:+ (b +:+ c).
Proof.
  induction a as [|x a IH]; [reflexivity|].
  now rewrite !str_app_cons, IH.
Qed.

Lemma str_app_nil_r (a : string) : a +:+ "" = a.
Proof.
  induction a as [|x a IH]; [reflexivity|].
  now rewrite str_app_cons, IH.
Qed.

Lemma str_app_eq_nil (a b : string) : a +:+ b = "" -> a = "" /\ b = "".
Proof. destruct a; [auto|]. rewrite str_app_cons. discriminate. Qed.

(** *** Serialization *)

Lemma write_atoms_foldl (atoms : list string) (fp : string) :
  foldl (fun fp atom => fp +:+ (atom +:+ nl)) fp atoms
  = fp +:+ lines_text atoms.
Proof.
  revert fp. induction atoms as [|a atoms IH]; intros fp; simpl.
  - now rewrite str_app_nil_r.
  - rewrite IH. now rewrite !str_app_assoc.
Qed.

Lemma truthy_comment (o : option string) :
  (if truthy o then
     "" +:+ "Lattice=" +:+ default "" o +:+ " Properties=species:S:1:pos:R:3"
   else "") = comment_if_nonempty o.
Proof. destruct o as [[|c l]|]; reflexivity. Qed.

Lemma write_lines_text (g : Geometry) (fp : string) :
  write g fp =
  fp +:+ lines_text (str_of_nat (length (coords g))
                     :: comment_if_nonempty (lattice g) :: coords g).
Proof.
  unfold write. rewrite truthy_comment, write_atoms_foldl.
  simpl. now rewrite !str_app_assoc.
Qed.

Lemma write_serialize (g : Geometry) (fp : string) :
  write g fp = fp +:+ serialize g.
Proof. unfold serialize. now rewrite !write_lines_text. Qed.




(** *** The All-together strategy *)




(** *** The Together strategy *)

Lemma together_name_not_empty prefix g : "" <> together_name prefix g.
Proof.
  unfold together_name. intros H. symmetry in H.
  apply str_app_eq_nil in H as [_ H].
  apply str_app_eq_nil in H as [_ H]. discriminate.
Qed.

Lemma write_together_loop_cons prefix old g gs (fs : filesystem) :
  write_together_loop prefix old (g :: gs) fs
  = if String.eqb old (together_name prefix g) then
      write_together_loop prefix old gs
        (with_open_a fs (together_name prefix g) (write g))
    else
      write_together_loop prefix (together_name prefix g) gs
        (with_open_w fs (together_name prefix g) (write g)).
Proof. reflexivity. Qed.

(** One iteration of the loop when the file name differs from the previous
    one: the file is opened for writing. *)
Lemma together_step_overwrite prefix old g gs (fs : filesystem) :
  old <> together_name prefix g ->
  write_together_loop prefix old (g :: gs) fs
  = write_together_loop prefix (together_name prefix g) gs
      (<[together_name prefix g := serialize g]> fs).
Proof.
  intros Hne. rewrite write_together_loop_cons.
  destruct (String.eqb_spec old (together_name prefix g)) as [E|_];
    [contradiction|reflexivity].
Qed.

(** One iteration when the file name is the previous one: the file is
    opened for appending. *)
Lemma together_step_append prefix g gs (fs : filesystem) :
  write_together_loop prefix (together_name prefix g) (g :: gs) fs
  = write_together_loop prefix (together_name prefix g) gs
      (<[together_name prefix g :=
           default "" (fs !! together_name prefix g) +:+ serialize g]> fs).
Proof.
  rewrite write_together_loop_cons, String.eqb_refl.
  unfold with_open_a. now rewrite write_serialize.
Qed.

Lemma together_loop_other prefix name old gs (fs : filesystem) :
  Forall (fun g => together_name prefix g <> name) gs ->
  write_together_loop prefix old gs fs !! name = fs !! name.
Proof.
  revert old fs. induction gs as [|g gs IH]; intros old fs HF;
    [reflexivity|].
  apply Forall_cons in HF as [Hg HF].
  destruct (decide (old = together_name prefix g)) as [->|Hne].
  - rewrite together_step_append, IH by assumption.
    now apply lookup_insert_ne.
  - rewrite together_step_overwrite, IH by assumption.
    now apply lookup_insert_ne.
Qed.

Lemma together_loop_run prefix name run after (fs : filesystem) text :
  Forall (fun g => together_name prefix g = name) run ->
  Forall (fun g => together_name prefix g <> name) after ->
  fs !! name = Some text ->
  write_together_loop prefix name (run ++ after) fs !! name
  = Some (text +:+ concat_text (map serialize run)).
Proof.
  intros Hrun Hafter. revert fs text.
  induction Hrun as [|g run Hg Hrun IH]; intros fs text Hfs; simpl app.
  - rewrite together_loop_other by assumption.
    simpl. now rewrite str_app_nil_r.
  - pose proof (together_step_append prefix g (run ++ after) fs) as Hstep.
    rewrite Hg in Hstep. rewrite Hstep.
    rewrite (IH _ (text +:+ serialize g)).
    + simpl. now rewrite str_app_assoc.
    + rewrite Hfs. simpl. apply lookup_insert_eq.
Qed.

Lemma together_loop_before prefix old before rest (fs : filesystem) :
  exists fs',
    write_together_loop prefix old (before ++ rest) fs
    = write_together_loop prefix (last_name prefix old before) rest fs'.
Proof.
  revert old fs. induction before as [|g before IH]; intros old fs.
  - exists fs. reflexivity.
  - assert (Hlast : last_name prefix old (g :: before)
                    = last_name prefix (together_name prefix g) before).
    { unfold last_name. destruct before as [|g0 before]; [reflexivity|].
      change (last (g :: g0 :: before)) with (last (g0 :: before)).
      now destruct (last (g0 :: before)) eqn:E;
        [|apply last_None in E]. }
    rewrite Hlast. simpl app.
    destruct (decide (old = together_name prefix g)) as [->|Hne].
    + rewrite together_step_append. apply IH.
    + rewrite together_step_overwrite by assumption. apply IH.
Qed.

Lemma together_run_content prefix before run after (fs : filesystem) name :
  run <> [] ->
  Forall (fun g => together_name prefix g = name) run ->
  (forall g, last before = Some g -> together_name prefix g <> name) ->
  Forall (fun g => together_name prefix g <> name) after ->
  write_together prefix (before ++ run ++ after) fs !! name
  = Some (concat_text (map serialize run)).
Proof.
  intros Hne Hrun Hlast Hafter. unfold write_together.
  destruct (together_loop_before prefix "" before (run ++ after) fs)
    as [fs' ->].
  destruct run as [|g run]; [contradiction|].
  apply Forall_cons in Hrun as [Hg Hrun].
  assert (Hold : last_name prefix "" before <> together_name prefix g).
  { unfold last_name. destruct (last before) as [g0|] eqn:E.
    - rewrite Hg. now apply Hlast.
    - apply together_name_not_empty. }
  simpl app. rewrite together_step_overwrite by assumption.
  rewrite Hg.
  rewrite (together_loop_run prefix name run after _ (serialize g));
    [reflexivity|assumption|assumption|apply lookup_insert_eq].
Qed.

(** C5. In the Together strategy a record whose file name differs from the
    name the loop remembers (that of the record before it, or the empty
    string at the start) opens its file for writing, and a record with the
    remembered name appends. So after the run, a file holds the
    serializations of only the last unbroken run of records with its name;
    when records of two sources come interleaved (A, B, A) the file of A
    holds the third record alone: the return to A truncated it. *)
Theorem together_overwrite_then_append :
  (forall prefix old g gs (fs : filesystem),
     old <> together_name prefix g ->
     write_together_loop prefix old (g :: gs) fs
     = write_together_loop prefix (together_name prefix g) gs
         (with_open_w fs (together_name prefix g) (write g))) /\
  (forall prefix g gs (fs : filesystem),
     write_together_loop prefix (together_name prefix g) (g :: gs) fs
     = write_together_loop prefix (together_name prefix g) gs
         (with_open_a fs (together_name prefix g) (write g))) /\
  (forall prefix before run after (fs : filesystem) name,
     run <> [] ->
     Forall (fun g => together_name prefix g = name) run ->
     (forall g, last before = Some g -> together_name prefix g <> name) ->
     Forall (fun g => together_name prefix g <> name) after ->
     write_together prefix (before ++ run ++ after) fs !! name
     = Some (concat_text (map serialize run))) /\
  (forall prefix gA gB gA' (fs : filesystem),
     together_name prefix gA' = together_name prefix gA ->
     together_name prefix gB <> together_name prefix gA ->
     write_together prefix [gA; gB; gA'] fs !! together_name prefix gA
     = Some (serialize gA')).
Proof.
  split; [|split; [|split]].
  - intros prefix old g gs fs Hne. rewrite write_together_loop_cons.
    destruct (String.eqb_spec old (together_name prefix g));
      [contradiction|reflexivity].
  - intros prefix g gs fs.
    now rewrite write_together_loop_cons, String.eqb_refl.
  - exact together_run_content.
  - intros prefix gA gB gA' fs HA HB.
    change [gA; gB; gA'] with ([gA; gB] ++ [gA'] ++ []).
    rewrite (together_run_content prefix [gA; gB] [gA'] [] fs
               (together_name prefix gA)).
    + simpl. now rewrite str_app_nil_r.
    + discriminate.
    + now repeat constructor.
    + intros g [= <-]. assumption.
    + constructor.
Qed.

Lemma together_overwrite_then_append_witness :
  write_together "out_" [geom_a1; geom_b1; geom_a2] sample_fs
    !! together_name "out_" geom_a1
  = Some (serialize geom_a2).
Proof.
  apply (proj2 (proj2 (proj2 together_overwrite_then_append))
           "out_" geom_a1 geom_b1 geom_a2 sample_fs).
  - vm_compute. reflexivity.
  - vm_compute. discriminate.
Defined.

(** *** Base names *)

Lemma split_on_not_nil sep s : split_on sep s <> [].
Proof.
  destruct s as [|c s]; simpl; [discriminate|].
  destruct (Ascii.eqb c sep); [discriminate|].
  destruct (split_on sep s); discriminate.
Qed.

Lemma split_on_app sep a b :
  split_on sep (a +:+ String sep b) = split_on sep a ++ split_on sep b.
Proof.
  induction a as [|c a IH].
  - rewrite str_app_nil_l. simpl. now rewrite Ascii.eqb_refl.
  - rewrite str_app_cons. simpl. rewrite IH.
    destruct (Ascii.eqb c sep); [reflexivity|].
    pose proof (split_on_not_nil sep a) as Hne.
    destruct (split_on sep a) as [|t ts]; [contradiction|reflexivity].
Qed.

Lemma split_on_absent sep s : has_char sep s = false -> split_on sep s = [s].
Proof.
  induction s as [|c s IH]; simpl; [reflexivity|].
  intros H. apply orb_false_iff in H as [Hc Hs].
  rewrite Hc, (IH Hs). reflexivity.
Qed.

Lemma last_item_app l1 l2 : l2 <> [] -> last_item (l1 ++ l2) = last_item l2.
Proof.
  intros Hne. unfold last_item. induction l1 as [|x l1 IH]; [reflexivity|].
  simpl. rewrite <- IH.
  destruct (l1 ++ l2) eqn:E; [|reflexivity].
  apply app_eq_nil in E as [_ E]. contradiction.
Qed.

Lemma get_basename_dir dir seg :
  get_basename (dir +:+ "/" +:+ seg) = get_basename seg.
Proof.
  unfold get_basename.
  change (dir +:+ "/" +:+ seg) with (dir +:+ String "/" seg).
  rewrite split_on_app, last_item_app by apply split_on_not_nil.
  reflexivity.
Qed.

Lemma get_basename_stem stem :
  has_char "/" stem = false -> has_char "." stem = false ->
  get_basename stem = stem.
Proof.
  intros H1 H2. unfold get_basename.
  rewrite (split_on_absent "/" stem H1). unfold last_item. simpl.
  now rewrite (split_on_absent "." stem H2).
Qed.

Lemma has_char_app c a b :
  has_char c (a +:+ b) = has_char c a || has_char c b.
Proof.
  induction a as [|x a IH]; [reflexivity|].
  rewrite str_app_cons. simpl. rewrite IH. now rewrite orb_assoc.
Qed.

Lemma get_basename_ext stem ext :
  has_char "/" stem = false -> has_char "." stem = false ->
  has_char "/" ext = false ->
  get_basename (stem +:+ "." +:+ ext) = stem.
Proof.
  intros H1 H2 H3. unfold get_basename.
  rewrite (split_on_absent "/").
  - unfold last_item. simpl.
    change (stem +:+ "." +:+ ext) with (stem +:+ String "." ext).
    rewrite split_on_app, (split_on_absent "." stem H2). reflexivity.
  - rewrite has_char_app, H1. simpl. exact H3.
Qed.

(** C8. The base name of a path is its last [/]-separated segment cut at
    the first dot: with a stem free of [/] and [.], and an extension free of
    [/] (it may hold further dots), every way of putting a directory part
    before the stem and an extension after it yields the stem. In particular
    the base name of [/a/b/structure.out] is [structure] and that of
    [name.part.xyz] is [name]. *)
Theorem basename_first_dot_of_last_segment (dir stem ext : string) :
  has_char "/" stem = false ->
  has_char "." stem = false ->
  has_char "/" ext = false ->
  get_basename (dir +:+ "/" +:+ stem +:+ "." +:+ ext) = stem /\
  get_basename (dir +:+ "/" +:+ stem) = stem /\
  get_basename (stem +:+ "." +:+ ext) = stem /\
  get_basename stem = stem /\
  get_basename "/a/b/structure.out" = "structure" /\
  get_basename "name.part.xyz" = "name".
Proof.
  intros H1 H2 H3.
  rewrite !get_basename_dir.
  rewrite (get_basename_ext stem ext H1 H2 H3).
  rewrite (get_basename_stem stem H1 H2).
  repeat split; reflexivity.
Qed.

Lemma basename_first_dot_of_last_segment_witness :
  get_basename ("/a/b" +:+ "/" +:+ "name" +:+ "." +:+ "part.xyz") = "name" /\
  get_basename ("/a/b" +:+ "/" +:+ "name") = "name" /\
  get_basename ("name" +:+ "." +:+ "part.xyz") = "name" /\
  get_basename "name" = "name" /\
  get_basename "/a/b/structure.out" = "structure" /\
  get_basename "name.part.xyz" = "name".
Proof.
  apply (basename_first_dot_of_last_segment "/a/b" "name" "part.xyz");
    reflexivity.
Defined.

(** *** Parsing a block *)

Lemma read_coords_cons fac cs line fp :
  read_coords fac cs (line :: fp) =
  if length (split line) =? 0 then Ok (cs, fp)
  else if length (split line) =? 6 then
    atom ← atom_line fac (split line); read_coords fac (cs ++ [atom]) fp
  else sys_exit.
Proof. reflexivity. Qed.

Lemma atom_line_coord fac line a :
  coord_line line a -> atom_line fac (split line) = Ok (atom_text fac a).
Proof.
  intros (t0 & t2 & t3 & t4 & t5 & -> & Hx & Hy & Hz).
  unfold atom_line, item, to_float. simpl.
  rewrite Hx. simpl. rewrite Hy. simpl. rewrite Hz. reflexivity.
Qed.

Lemma read_coords_block fac cs block atoms rest :
  Forall2 coord_line block atoms ->
  block_end rest ->
  read_coords fac cs (block ++ rest)
  = Ok (cs ++ map (atom_text fac) atoms, tail rest).
Proof.
  intros HF Hend. revert cs.
  induction HF as [|line a block atoms Hl HF IH]; intros cs.
  - simpl. rewrite app_nil_r. destruct rest as [|blank rest]; [reflexivity|].
    rewrite read_coords_cons. simpl in Hend. now rewrite Hend.
  - simpl app. rewrite read_coords_cons.
    rewrite (atom_line_coord fac line a Hl).
    destruct Hl as (t0 & t2 & t3 & t4 & t5 & -> & _). simpl.
    rewrite IH. now rewrite <- app_assoc.
Qed.

Lemma Geometry_init_block source count units fac block atoms rest :
  unit_factor units = Ok fac ->
  Forall2 coord_line block atoms ->
  block_end rest ->
  Geometry_init source count units (block ++ rest)
  = Ok (mkGeometry None None (map (atom_text fac) atoms) source count,
        tail rest).
Proof.
  intros Hu HF Hend. unfold Geometry_init. rewrite Hu. simpl.
  now rewrite (read_coords_block fac [] block atoms rest HF Hend).
Qed.

(** C2. When a block of six-token lines is parsed into a record, every atom
    line of the record is the token at index 1 followed by the tokens at
    indices 3, 4 and 5 read as floats and multiplied by the unit factor; the
    factor is [1.0/1.889725989] for [au], [1.0] for [angstrom] and [10.0]
    for [nm]. *)
Theorem coordinates_scaled_by_unit_factor
    (source : string) (count : nat) (units : string) (fac : float)
    (block : list string) (atoms : list Atom) (rest : list string) :
  unit_factor units = Ok fac ->
  Forall2 coord_line block atoms ->
  block_end rest ->
  Geometry_init source count units (block ++ rest)
  = Ok (mkGeometry None None (map (atom_text fac) atoms) source count,
        tail rest) /\
  exists one c ten,
    float_of_string "1.0" = Some one /\
    float_of_string "1.889725989" = Some c /\
    float_of_string "10.0" = Some ten /\
    unit_factor "au" = Ok (float_div one c) /\
    unit_factor "angstrom" = Ok one /\
    unit_factor "nm" = Ok ten.
Proof.
  intros Hu HF Hend. split; [now apply Geometry_init_block|].
  do 3 eexists.
  split; [vm_compute; reflexivity|].
  split; [vm_compute; reflexivity|].
  split; [vm_compute; reflexivity|].
  repeat split; vm_compute; reflexivity.
Qed.

Lemma coordinates_scaled_by_unit_factor_witness :
  Geometry_init "run/a.out" 2 "au" (block_a2 ++ [nl; ln "      Atomic Mass"])
  = Ok (mkGeometry None None (map (atom_text fac_au) atoms_a2) "run/a.out" 2,
        tail [nl; ln "      Atomic Mass"]) /\
  exists one c ten,
    float_of_string "1.0" = Some one /\
    float_of_string "1.889725989" = Some c /\
    float_of_string "10.0" = Some ten /\
    unit_factor "au" = Ok (float_div one c) /\
    unit_factor "angstrom" = Ok one /\
    unit_factor "nm" = Ok ten.
Proof.
  apply (coordinates_scaled_by_unit_factor "run/a.out" 2 "au" fac_au
           block_a2 atoms_a2 [nl; ln "      Atomic Mass"]).
  - reflexivity.
  - repeat constructor;
      (do 5 eexists; split; [vm_compute; reflexivity|];
       repeat split; vm_compute; reflexivity).
  - reflexivity.
Defined.

(** *** A file with one block *)

Lemma append_loop_no_marker filename gi c ls rest :
  Forall (fun l => marker_units l = None) ls ->
  append_loop gi filename c (ls ++ rest) = append_loop gi filename c rest.
Proof.
  induction 1 as [|l ls Hl HF IH]; [reflexivity|].
  simpl app. now rewrite append_loop_cons, Hl.
Qed.

Lemma atom_line_Li :
  atom_line (float_of_decimal false 10 (-1))
            ["1"; "Li"; "0"; "1.0"; "2.0"; "3.0"]
  = Ok "Li 1.0 2.0 3.0".
Proof. vm_compute. reflexivity. Qed.

Lemma Geometry_init_Li filename c atom blank post :
  split atom = ["1"; "Li"; "0"; "1.0"; "2.0"; "3.0"] ->
  split blank = [] ->
  Geometry_init filename c "angstrom" (atom :: blank :: post)
  = Ok (mkGeometry None None ["Li 1.0 2.0 3.0"] filename c, post).
Proof.
  intros Ha Hb. unfold Geometry_init.
  change (unit_factor "angstrom") with (Ok (float_of_decimal false 10 (-1))).
  change (Ok (float_of_decimal false 10 (-1)) ≫= ?f)
    with (f (float_of_decimal false 10 (-1))).
  cbv beta. rewrite read_coords_cons, Ha.
  change (length ["1"; "Li"; "0"; "1.0"; "2.0"; "3.0"] =? 0) with false.
  change (length ["1"; "Li"; "0"; "1.0"; "2.0"; "3.0"] =? 6) with true.
  cbv iota. rewrite atom_line_Li.
  change (Ok "Li 1.0 2.0 3.0" ≫= ?f) with (f "Li 1.0 2.0 3.0").
  cbv beta. rewrite read_coords_cons, Hb. reflexivity.
Qed.

(** C1. A file that holds, between lines that are no markers, one block
    made of a line that starts with the angstrom phrase once stripped, three
    header lines of any content, the atom line [1  Li  0  1.0 2.0 3.0] and a
    blank line, yields exactly one record, with the single atom line
    [Li 1.0 2.0 3.0] and sequence index 1. The three lines after the marker
    are skipped whatever they hold, and the constructor consumes the blank
    line: it leaves the file at the line after it. *)
Theorem single_angstrom_block
    (filename : string) (pre post : list string)
    (marker h1 h2 h3 atom blank : string) :
  Forall (fun l => marker_units l = None) pre ->
  startswith (strip marker) "Output coordinates in angstroms" = true ->
  split atom = ["1"; "Li"; "0"; "1.0"; "2.0"; "3.0"] ->
  split blank = [] ->
  Forall (fun l => marker_units l = None) post ->
  append_geometries [] filename
    (pre ++ [marker; h1; h2; h3; atom; blank] ++ post)
  = Ok [mkGeometry None None ["Li 1.0 2.0 3.0"] filename 1] /\
  Geometry_init filename 1 "angstrom"
    (skip_lines ([h1; h2; h3; atom; blank] ++ post) 3)
  = Ok (mkGeometry None None ["Li 1.0 2.0 3.0"] filename 1, post).
Proof.
  intros Hpre Hm Ha Hb Hpost.
  assert (Hg : Geometry_init filename 1 "angstrom"
                 (skip_lines ([h1; h2; h3; atom; blank] ++ post) 3)
               = Ok (mkGeometry None None ["Li 1.0 2.0 3.0"] filename 1,
                     post)).
  { apply Geometry_init_Li; assumption. }
  split; [|exact Hg].
  unfold append_geometries. rewrite append_loop_no_marker by assumption.
  change ([marker; h1; h2; h3; atom; blank] ++ post)
    with (marker :: ([h1; h2; h3; atom; blank] ++ post)).
  rewrite append_loop_cons. unfold marker_units. rewrite Hm.
  change (0 + 1) with 1. rewrite Hg.
  rewrite <- (app_nil_r post), append_loop_no_marker by assumption.
  now rewrite append_loop_nil.
Qed.

Lemma single_angstrom_block_witness :
  append_geometries [] "run/li.out"
    ([ln " NWChem Geometry Optimization"]
     ++ [angstrom_marker; nl; header2; header3;
         ln "    1  Li  0  1.0 2.0 3.0"; nl]
     ++ [ln "      Atomic Mass"; ln "    2  Li  0  4.0 5.0 6.0"])
  = Ok [mkGeometry None None ["Li 1.0 2.0 3.0"] "run/li.out" 1] /\
  Geometry_init "run/li.out" 1 "angstrom"
    (skip_lines
       ([nl; header2; header3; ln "    1  Li  0  1.0 2.0 3.0"; nl]
        ++ [ln "      Atomic Mass"; ln "    2  Li  0  4.0 5.0 6.0"]) 3)
  = Ok (mkGeometry None None ["Li 1.0 2.0 3.0"] "run/li.out" 1,
        [ln "      Atomic Mass"; ln "    2  Li  0  4.0 5.0 6.0"]).
Proof.
  apply (single_angstrom_block "run/li.out"
           [ln " NWChem Geometry Optimization"]
           [ln "      Atomic Mass"; ln "    2  Li  0  4.0 5.0 6.0"]
           angstrom_marker nl header2 header3
           (ln "    1  Li  0  1.0 2.0 3.0") nl).
  - repeat constructor.
  - reflexivity.
  - reflexivity.
  - reflexivity.
  - repeat constructor.
Defined.

(** *** The scan as a line-by-line machine *)

Lemma scan_app m l1 l2 :
  scan m (l1 ++ l2) = scan m l1 ≫= fun m' => scan m' l2.
Proof.
  revert m. induction l1 as [|l l1 IH]; intros m; [reflexivity|].
  simpl. destruct (scan_step m l) as [m'|e]; simpl; [apply IH|reflexivity].
Qed.

Lemma outcome_cons m line lines :
  outcome m (line :: lines) =
  match scan_step m line with
  | Ok m' => outcome m' lines
  | Raise e => Some e
  end.
Proof.
  unfold outcome. simpl. now destruct (scan_step m line).
Qed.

Lemma atom_line_six fac tokens :
  length tokens = 6 ->
  if coords_parse tokens then is_ok (atom_line fac tokens) = true
  else atom_line fac tokens = Raise ValueError.
Proof.
  intros Hlen.
  destruct tokens as [|t0 [|t1 [|t2 [|t3 [|t4 [|t5 [|t6 ts]]]]]]];
    try discriminate.
  unfold coords_parse, atom_line, item, to_float. simpl.
  destruct (float_of_string t3); simpl; [|reflexivity].
  destruct (float_of_string t4); simpl; [|reflexivity].
  destruct (float_of_string t5); reflexivity.
Qed.

Lemma read_coords_outcome fac cs fp :
  outcome (InGeometry 0) fp =
  match read_coords fac cs fp with
  | Ok (_, fp') => outcome Scanning fp'
  | Raise e => Some e
  end.
Proof.
  revert cs. induction fp as [|line fp IH]; intros cs; [reflexivity|].
  rewrite outcome_cons, read_coords_cons. unfold scan_step.
  destruct (length (split line) =? 0); [reflexivity|].
  destruct (length (split line) =? 6) eqn:E6; [|reflexivity].
  apply Nat.eqb_eq in E6.
  pose proof (atom_line_six fac (split line) E6) as Hatom.
  destruct (coords_parse (split line)).
  - destruct (atom_line fac (split line)) as [atom|e]; [|discriminate].
    simpl. apply IH.
  - now rewrite Hatom.
Qed.

Lemma skip_lines_nil num : skip_lines [] num = [].
Proof. induction num as [|num IH]; [reflexivity|exact IH]. Qed.

Lemma skip_outcome num fp :
  outcome (InGeometry num) fp = outcome (InGeometry 0) (skip_lines fp num).
Proof.
  revert fp. induction num as [|num IH]; intros fp; [reflexivity|].
  destruct fp as [|line fp].
  - now rewrite skip_lines_nil.
  - rewrite outcome_cons. simpl. apply IH.
Qed.

Lemma marker_units_factor line units :
  marker_units line = Some units -> exists fac, unit_factor units = Ok fac.
Proof.
  unfold marker_units.
  destruct (startswith (strip line) "Output coordinates in angstroms").
  - intros [= <-]. eexists. reflexivity.
  - destruct (startswith (strip line) "Output coordinates in a.u.");
      [|discriminate].
    intros [= <-]. eexists. reflexivity.
Qed.

Lemma Geometry_init_outcome filename c units fac fp :
  unit_factor units = Ok fac ->
  outcome (InGeometry 0) fp =
  match Geometry_init filename c units fp with
  | Ok (_, fp') => outcome Scanning fp'
  | Raise e => Some e
  end.
Proof.
  intros Hu. unfold Geometry_init. rewrite Hu. simpl.
  rewrite (read_coords_outcome fac [] fp).
  now destruct (read_coords fac [] fp) as [[cs fp']|e].
Qed.

(** The loop of [append_geometries] ends as the line-by-line scan does. *)
Lemma append_loop_outcome filename gi c fp :
  outcome Scanning fp =
  match append_loop gi filename c fp with
  | Ok _ => None
  | Raise e => Some e
  end.
Proof.
  apply (append_loop_ind filename
    (fun gi c fp =>
       outcome Scanning fp =
       match append_loop gi filename c fp with
       | Ok _ => None
       | Raise e => Some e
       end)).
  - intros g0 c0. now rewrite append_loop_nil.
  - intros g0 c0 line fp0 Hm IH.
    rewrite outcome_cons, append_loop_cons. unfold scan_step.
    now rewrite Hm.
  - intros g0 c0 line fp0 units e Hm Hg.
    rewrite outcome_cons, append_loop_cons. unfold scan_step.
    rewrite Hm, Hg.
    destruct (marker_units_factor line units Hm) as [fac Hu].
    rewrite skip_outcome.
    now rewrite (Geometry_init_outcome filename (c0 + 1) units fac _ Hu), Hg.
  - intros g0 c0 line fp0 units g fp' Hm Hg IH.
    rewrite outcome_cons, append_loop_cons. unfold scan_step.
    rewrite Hm, Hg.
    destruct (marker_units_factor line units Hm) as [fac Hu].
    rewrite skip_outcome.
    rewrite (Geometry_init_outcome filename (c0 + 1) units fac _ Hu), Hg.
    exact IH.
Qed.

Lemma append_geometries_outcome filename gi fp :
  outcome Scanning fp =
  match append_geometries gi filename fp with
  | Ok _ => None
  | Raise e => Some e
  end.
Proof. apply append_loop_outcome. Qed.

(** A line in a block with a token count other than 0 and 6 ends the scan
    with [SystemExit]. *)
Lemma malformed_line_outcome pre bad rest :
  scan Scanning pre = Ok (InGeometry 0) ->
  length (split bad) <> 0 ->
  length (split bad) <> 6 ->
  outcome Scanning (pre ++ bad :: rest) = Some (SystemExit None).
Proof.
  intros Hpre H0 H6. unfold outcome. rewrite scan_app, Hpre. simpl.
  apply Nat.eqb_neq in H0, H6. now rewrite H0, H6.
Qed.

(** *** Fatal errors *)


Lemma run_extractor_loop_raises fs earlier file later text e gi :
  Forall (scans_clean fs) earlier ->
  fs !! file = Some text ->
  outcome Scanning (lines_of text) = Some e ->
  run_extractor_loop fs gi (earlier ++ file :: later) = Raise e.
Proof.
  intros HF Hfile Hout. revert gi.
  induction HF as [|f earlier (t & Hf & Ho) HF IH]; intros gi.
  - simpl. unfold open_r. rewrite Hfile. simpl.
    rewrite (append_geometries_outcome file gi) in Hout.
    destruct (append_geometries gi file (lines_of text)) as [gs|e'];
      [discriminate|].
    now injection Hout as ->.
  - simpl. unfold open_r. rewrite Hf. simpl.
    rewrite (append_geometries_outcome f gi) in Ho.
    destruct (append_geometries gi f (lines_of t)) as [gs|e'];
      [|discriminate].
    simpl. apply IH.
Qed.

(** An exception raised while any file is scanned ends the script before
    anything is written. *)
Lemma main_raises args (fs : filesystem) earlier file later text e :
  nwofilenames args = earlier ++ file :: later ->
  Forall (scans_clean fs) earlier ->
  fs !! file = Some text ->
  outcome Scanning (lines_of text) = Some e ->
  main args fs = (Raise e, fs).
Proof.
  intros Hargs HF Hfile Hout. unfold main, run_extractor. rewrite Hargs.
  now rewrite (run_extractor_loop_raises fs earlier file later text e []).
Qed.


Lemma unknown_units_exit source count units fp :
  units <> "au" -> units <> "angstrom" -> units <> "nm" ->
  Geometry_init source count units fp = Raise (SystemExit None).
Proof.
  intros H1 H2 H3. unfold Geometry_init, unit_factor.
  destruct (String.eqb_spec units "au"); [contradiction|].
  destruct (String.eqb_spec units "angstrom"); [contradiction|].
  destruct (String.eqb_spec units "nm"); [contradiction|].
  reflexivity.
Qed.

Lemma malformed_line_exit source count units fac good atoms bad rest :
  unit_factor units = Ok fac ->
  Forall2 coord_line good atoms ->
  length (split bad) <> 0 ->
  length (split bad) <> 6 ->
  Geometry_init source count units (good ++ bad :: rest)
  = Raise (SystemExit None).
Proof.
  intros Hu HF H0 H6. unfold Geometry_init. rewrite Hu. simpl.
  assert (H : forall cs,
             read_coords fac cs (good ++ bad :: rest)
             = Raise (SystemExit None)).
  { induction HF as [|line a good atoms Hl HF IH]; intros cs.
    - simpl app. rewrite read_coords_cons.
      apply Nat.eqb_neq in H0, H6. now rewrite H0, H6.
    - simpl app. rewrite read_coords_cons.
      rewrite (atom_line_coord fac line a Hl).
      destruct Hl as (t0 & t2 & t3 & t4 & t5 & -> & _). simpl. apply IH. }
  now rewrite H.
Qed.

(** C6. When the scan of an input file reaches, inside a block, a line
    whose token count is neither 0 nor 6, the constructor exits
    ([SystemExit], raised by [sys.exit()]), and this ends the whole script:
    no file after it on the command line is opened, whether it exists or
    not, and no output file is written. The constructor exits likewise,
    before reading any line, for a unit system other than [au], [angstrom]
    and [nm]. *)
Theorem malformed_line_aborts_program
    (args : Args) (fs : filesystem) (earlier later : list string)
    (file text : string) (pre rest : list string) (bad : string) :
  nwofilenames args = earlier ++ file :: later ->
  Forall (scans_clean fs) earlier ->
  fs !! file = Some text ->
  lines_of text = pre ++ bad :: rest ->
  scan Scanning pre = Ok (InGeometry 0) ->
  length (split bad) <> 0 ->
  length (split bad) <> 6 ->
  main args fs = (Raise (SystemExit None), fs) /\
  (forall source count units fac good atoms rest',
     unit_factor units = Ok fac ->
     Forall2 coord_line good atoms ->
     Geometry_init source count units (good ++ bad :: rest')
     = Raise (SystemExit None)) /\
  (forall source count units fp,
     units <> "au" -> units <> "angstrom" -> units <> "nm" ->
     Geometry_init source count units fp = Raise (SystemExit None)).
Proof.
  intros Hargs HF Hfile Hlines Hpre H0 H6. split; [|split].
  - apply (main_raises args fs earlier file later text); try assumption.
    rewrite Hlines. now apply malformed_line_outcome.
  - intros. now apply (malformed_line_exit _ _ _ fac good atoms).
  - exact unknown_units_exit.
Qed.

Lemma malformed_line_aborts_program_witness :
  main bad_args sample_fs = (Raise (SystemExit None), sample_fs) /\
  (forall source count units fac good atoms rest',
     unit_factor units = Ok fac ->
     Forall2 coord_line good atoms ->
     Geometry_init source count units (good ++ bad_line :: rest')
     = Raise (SystemExit None)) /\
  (forall source count units fp,
     units <> "au" -> units <> "angstrom" -> units <> "nm" ->
     Geometry_init source count units fp = Raise (SystemExit None)).
Proof.
  apply (malformed_line_aborts_program bad_args sample_fs
           ["run/a.out"] ["run/missing.out"] "run/bad.out" log_bad
           bad_prefix [nl] bad_line).
  - reflexivity.
  - repeat constructor. exists log_a. split; vm_compute; reflexivity.
  - vm_compute. reflexivity.
  - vm_compute. reflexivity.
  - vm_compute. reflexivity.
  - vm_compute. discriminate.
  - vm_compute. discriminate.
Defined.




End Props.

(** ** Further properties of the program *)

Module Extras.
Import PyStr PyFloat NWGeom Spec Samples Props.

(** *** Skipping lines *)

Lemma skip_lines_drop fp num : skip_lines fp num = drop num fp.
Proof.
  revert fp. induction num as [|num IH]; intros fp; [reflexivity|].
  simpl. rewrite IH. destruct fp as [|l fp]; [apply drop_nil|reflexivity].
Qed.

(** X1. [skip_lines] moves the file position [num] lines forwards: the
    lines left are the file without its first [num] lines. When fewer than
    [num] lines are left it stops at the end of the file, without an
    error. *)
Theorem skip_lines_is_drop (fp : list string) (num : nat) :
  skip_lines fp num = drop num fp /\
  length (skip_lines fp num) = length fp - num /\
  (length fp <= num -> skip_lines fp num = []).
Proof.
  rewrite skip_lines_drop. split; [reflexivity|]. split.
  - apply length_drop.
  - apply drop_ge.
Qed.

Lemma skip_lines_is_drop_witness :
  skip_lines [nl; header2] 3 = drop 3 [nl; header2] /\
  length (skip_lines [nl; header2] 3) = length [nl; header2] - 3 /\
  (length [nl; header2] <= 3 -> skip_lines [nl; header2] 3 = []).
Proof. apply (skip_lines_is_drop [nl; header2] 3). Defined.

(** *** Exceptions *)





Lemma unreadable_outcome pre bad rest :
  scan Scanning pre = Ok (InGeometry 0) ->
  length (split bad) = 6 ->
  coords_parse (split bad) = false ->
  outcome Scanning (pre ++ bad :: rest) = Some ValueError.
Proof.
  intros Hpre H6 Hc. unfold outcome. rewrite scan_app, Hpre. simpl.
  now rewrite H6, Hc.
Qed.

(** X2. When the scan of an input file reaches, inside a block, a line of
    six tokens of which one of the last three does not read as a float,
    [float] raises [ValueError]: the script ends there with exit status 1,
    opens no later file and writes nothing. *)
Theorem unreadable_coordinate_raises_value_error
    (args : Args) (fs : filesystem) (earlier later : list string)
    (file text : string) (pre rest : list string) (bad : string) :
  nwofilenames args = earlier ++ file :: later ->
  Forall (scans_clean fs) earlier ->
  fs !! file = Some text ->
  lines_of text = pre ++ bad :: rest ->
  scan Scanning pre = Ok (InGeometry 0) ->
  length (split bad) = 6 ->
  coords_parse (split bad) = false ->
  main args fs = (Raise ValueError, fs) /\
  exit_status (fst (main args fs)) = 1%Z.
Proof.
  intros Hargs HF Hfile Hlines Hpre H6 Hc.
  assert (H : main args fs = (Raise ValueError, fs)).
  { apply (main_raises args fs earlier file later text); try assumption.
    rewrite Hlines. now apply unreadable_outcome. }
  now rewrite H.
Qed.

Lemma unreadable_coordinate_raises_value_error_witness :
  main (mkArgs ["run/a.out"; "run/unreadable.out"; "run/missing.out"]
          "out_" true true true) sample_fs_more
    = (Raise ValueError, sample_fs_more) /\
  exit_status
    (fst (main (mkArgs ["run/a.out"; "run/unreadable.out"; "run/missing.out"]
                  "out_" true true true) sample_fs_more)) = 1%Z.
Proof.
  apply (unreadable_coordinate_raises_value_error
           (mkArgs ["run/a.out"; "run/unreadable.out"; "run/missing.out"]
              "out_" true true true) sample_fs_more
           ["run/a.out"] ["run/missing.out"] "run/unreadable.out"
           log_unreadable bad_prefix [nl] unreadable_line).
  - reflexivity.
  - repeat constructor. exists log_a. split; vm_compute; reflexivity.
  - vm_compute. reflexivity.
  - vm_compute. reflexivity.
  - vm_compute. reflexivity.
  - vm_compute. reflexivity.
  - vm_compute. reflexivity.
Defined.

Lemma run_extractor_loop_missing fs earlier file later gi :
  Forall (scans_clean fs) earlier ->
  fs !! file = None ->
  run_extractor_loop fs gi (earlier ++ file :: later)
  = Raise FileNotFoundError.
Proof.
  intros HF Hfile. revert gi.
  induction HF as [|f earlier (t & Hf & Ho) HF IH]; intros gi.
  - simpl. unfold open_r. now rewrite Hfile.
  - simpl. unfold open_r. rewrite Hf. simpl.
    rewrite (append_geometries_outcome f gi) in Ho.
    destruct (append_geometries gi f (lines_of t)) as [gs|e'];
      [|discriminate].
    simpl. apply IH.
Qed.

(** X3. An input file that does not exist ends the script with
    [FileNotFoundError] and exit status 1 when its turn comes: the geometries
    of the files before it are dropped, and nothing is written. *)
Theorem missing_file_raises
    (args : Args) (fs : filesystem) (earlier later : list string)
    (file : string) :
  nwofilenames args = earlier ++ file :: later ->
  Forall (scans_clean fs) earlier ->
  fs !! file = None ->
  main args fs = (Raise FileNotFoundError, fs) /\
  exit_status (fst (main args fs)) = 1%Z.
Proof.
  intros Hargs HF Hfile.
  assert (H : main args fs = (Raise FileNotFoundError, fs)).
  { unfold main, run_extractor. rewrite Hargs.
    now rewrite (run_extractor_loop_missing fs earlier file later []). }
  now rewrite H.
Qed.

Lemma missing_file_raises_witness :
  main (mkArgs ["run/a.out"; "run/missing.out"; "run/b.out"]
          "out_" true true true) sample_fs
    = (Raise FileNotFoundError, sample_fs) /\
  exit_status
    (fst (main (mkArgs ["run/a.out"; "run/missing.out"; "run/b.out"]
                  "out_" true true true) sample_fs)) = 1%Z.
Proof.
  apply (missing_file_raises
           (mkArgs ["run/a.out"; "run/missing.out"; "run/b.out"]
              "out_" true true true) sample_fs
           ["run/a.out"] ["run/b.out"] "run/missing.out").
  - reflexivity.
  - repeat constructor. exists log_a. split; vm_compute; reflexivity.
  - vm_compute. reflexivity.
Defined.

(** *** What the writers leave alone *)

Lemma write_separate_cons prefix g gs (fs : filesystem) :
  write_separate prefix (g :: gs) fs
  = write_separate prefix gs (<[separate_name prefix g := serialize g]> fs).
Proof. reflexivity. Qed.

Lemma write_separate_other prefix name gs (fs : filesystem) :
  Forall (fun g => separate_name prefix g <> name) gs ->
  write_separate prefix gs fs !! name = fs !! name.
Proof.
  revert fs. induction gs as [|g gs IH]; intros fs HF; [reflexivity|].
  apply Forall_cons in HF as [Hg HF].
  rewrite write_separate_cons, IH by assumption.
  now apply lookup_insert_ne.
Qed.





(** *** The Separate strategy *)

Lemma write_separate_last prefix before g after (fs : filesystem) :
  Forall (fun g' => separate_name prefix g' <> separate_name prefix g)
         after ->
  write_separate prefix (before ++ g :: after) fs
    !! separate_name prefix g
  = Some (serialize g).
Proof.
  intros HF. revert fs. induction before as [|b before IH]; intros fs.
  - simpl app. rewrite write_separate_cons, write_separate_other
      by assumption.
    apply lookup_insert_eq.
  - simpl app. rewrite write_separate_cons. apply IH.
Qed.

(** X6. Under the Separate strategy the file of a record holds, after the
    run, exactly the serialization of the last record in the list that has
    its file name: each record opens its file for writing, so an earlier
    record with the same name is lost, whatever the file held before. *)
Theorem separate_last_writer_wins
    (prefix : string) (before after : list Geometry) (g : Geometry)
    (fs : filesystem) :
  Forall (fun g' => separate_name prefix g' <> separate_name prefix g)
         after ->
  write_separate prefix (before ++ g :: after) fs
    !! separate_name prefix g
  = Some (serialize g).
Proof. apply write_separate_last. Qed.

Lemma separate_last_writer_wins_witness :
  write_separate "out_" ([geom_a1; geom_b1] ++ geom_a1 :: [geom_a2])
    sample_fs !! separate_name "out_" geom_a1
  = Some (serialize geom_a1).
Proof.
  apply (separate_last_writer_wins "out_" [geom_a1; geom_b1] [geom_a2]
           geom_a1 sample_fs).
  repeat constructor. vm_compute. discriminate.
Defined.

(** *** Numbers in file names *)

Lemma str_length_app (a b : string) :
  String.length (a +:+ b) = String.length a + String.length b.
Proof.
  induction a as [|x a IH]; [reflexivity|].
  rewrite str_app_cons. simpl. now rewrite IH.
Qed.

Lemma str_app_inj_r (a b s : string) : a +:+ s = b +:+ s -> a = b.
Proof.
  revert b. induction a as [|x a IH]; intros [|y b] H.
  - reflexivity.
  - rewrite str_app_nil_l, str_app_cons in H.
    apply (f_equal String.length) in H.
    simpl in H. rewrite str_length_app in H. lia.
  - rewrite str_app_nil_l, str_app_cons in H.
    apply (f_equal String.length) in H.
    simpl in H. rewrite str_length_app in H. lia.
  - rewrite !str_app_cons in H. injection H as -> H. f_equal. now apply IH.
Qed.

Lemma repeat_char_length c n : String.length (repeat_char c n) = n.
Proof. induction n as [|n IH]; simpl; [reflexivity|now rewrite IH]. Qed.

Lemma to_uint_nonnil (n : N) : N.to_uint n <> Decimal.Nil.
Proof.
  destruct n as [|p]; [discriminate|].
  apply DecimalPos.Unsigned.to_uint_nonnil.
Qed.

Lemma string_of_uint_empty (d : Decimal.uint) :
  d <> Decimal.Nil ->
  NilZero.string_of_uint d = NilEmpty.string_of_uint d /\
  NilEmpty.string_of_uint d <> "".
Proof. destruct d; try contradiction; intros _; split; discriminate || reflexivity. Qed.

Lemma uint_of_zeros k s :
  NilEmpty.uint_of_string (repeat_char "0" k +:+ s)
  = Nat.iter k Decimal.D0 <$> NilEmpty.uint_of_string s.
Proof.
  induction k as [|k IH].
  - rewrite str_app_nil_l. now destruct (NilEmpty.uint_of_string s).
  - change (repeat_char "0" (S k)) with (String "0" (repeat_char "0" k)).
    rewrite str_app_cons.
    change (NilEmpty.uint_of_string (String "0" (repeat_char "0" k +:+ s)))
      with (uint_of_char "0" (NilEmpty.uint_of_string (repeat_char "0" k +:+ s))).
    rewrite IH. now destruct (NilEmpty.uint_of_string s).
Qed.

Lemma of_uint_zeros k d : N.of_uint (Nat.iter k Decimal.D0 d) = N.of_uint d.
Proof. induction k as [|k IH]; [reflexivity|exact IH]. Qed.

Lemma digits_value_format n : digits_value (format_04d n) = n.
Proof.
  unfold digits_value, format_04d, str_of_nat, str_of_N.
  destruct (string_of_uint_empty (N.to_uint (N.of_nat n))
              (to_uint_nonnil _)) as [-> Hne].
  assert (Hz : forall z, NilZero.uint_of_string z
                         = match z with
                           | "" => None
                           | _ => NilEmpty.uint_of_string z
                           end) by now intros [|].
  rewrite Hz.
  destruct (repeat_char "0" _ +:+ _) eqn:E.
  - apply str_app_eq_nil in E as [_ E]. contradiction.
  - rewrite <- E, uint_of_zeros, NilEmpty.usu. simpl.
    rewrite of_uint_zeros, DecimalN.Unsigned.of_to. apply Nat2N.id.
Qed.

(** X7. The number part of a Separate file name, [f"{number:04d}"], has at
    least four characters and reads back as the number: it is padded with
    zeros on the left and never cut, so distinct sequence indices give
    distinct number parts. *)
Theorem format_04d_reads_back (n m : nat) :
  digits_value (format_04d n) = n /\
  4 <= String.length (format_04d n) /\
  (format_04d n = format_04d m -> n = m).
Proof.
  split; [apply digits_value_format|]. split.
  - unfold format_04d. rewrite str_length_app, repeat_char_length. lia.
  - intros H. apply (f_equal digits_value) in H.
    now rewrite !digits_value_format in H.
Qed.

Lemma format_04d_reads_back_witness :
  digits_value (format_04d 12) = 12 /\
  4 <= String.length (format_04d 12) /\
  (format_04d 12 = format_04d 12 -> 12 = 12).
Proof. apply (format_04d_reads_back 12 12). Defined.

Lemma has_char_digits (d : Decimal.uint) :
  has_char "_" (NilEmpty.string_of_uint d) = false.
Proof. induction d; simpl; assumption || reflexivity. Qed.

Lemma has_char_repeat_zero k : has_char "_" (repeat_char "0" k) = false.
Proof. induction k as [|k IH]; [reflexivity|exact IH]. Qed.

Lemma has_char_format n : has_char "_" (format_04d n) = false.
Proof.
  unfold format_04d, str_of_nat, str_of_N.
  destruct (string_of_uint_empty (N.to_uint (N.of_nat n))
              (to_uint_nonnil _)) as [-> _].
  now rewrite has_char_app, has_char_repeat_zero, has_char_digits.
Qed.

(** A name cut at its last underscore has one reading. *)
Lemma underscore_split (b b' d d' : string) :
  has_char "_" d = false -> has_char "_" d' = false ->
  b +:+ String "_" d = b' +:+ String "_" d' -> b = b' /\ d = d'.
Proof.
  intros Hd Hd'. revert b'. induction b as [|x b IH]; intros [|y b'] H.
  - change (String "_" d = String "_" d') in H. now injection H as ->.
  - change (String "_" d = String y (b' +:+ String "_" d')) in H.
    injection H as <- ->.
    rewrite has_char_app in Hd. simpl in Hd.
    now rewrite orb_true_r in Hd.
  - change (String x (b +:+ String "_" d) = String "_" d') in H.
    injection H as -> <-.
    rewrite has_char_app in Hd'. simpl in Hd'.
    now rewrite orb_true_r in Hd'.
  - rewrite !str_app_cons in H. injection H as -> H.
    destruct (IH b' H) as [-> ->]. auto.
Qed.

Lemma separate_name_inj prefix g g' :
  separate_name prefix g = separate_name prefix g' ->
  get_basename (source g) = get_basename (source g') /\ count g = count g'.
Proof.
  unfold separate_name. intros H.
  apply String.app_inj in H.
  rewrite <- !(str_app_assoc _ "_") in H.
  rewrite <- !(str_app_assoc _ (format_04d _)) in H.
  apply str_app_inj_r in H.
  rewrite !str_app_assoc in H.
  change ("_" +:+ format_04d (count g))
    with (String "_" (format_04d (count g))) in H.
  change ("_" +:+ format_04d (count g'))
    with (String "_" (format_04d (count g'))) in H.
  apply underscore_split in H as [Hb Hd]; try apply has_char_format.
  split; [assumption|].
  apply (f_equal digits_value) in Hd.
  now rewrite !digits_value_format in Hd.
Qed.

(** *** One output file per record, one per source *)

Lemma NoDup_fmap_through {A B C : Type} (f : A -> B) (h : A -> C)
    (l : list A) :
  (forall x y, h x = h y -> f x = f y) ->
  NoDup (f <$> l) -> NoDup (h <$> l).
Proof.
  intros Hfh. induction l as [|x l IH]; intros Hnd; [constructor|].
  rewrite fmap_cons in Hnd. apply NoDup_cons in Hnd as [Hx Hnd].
  rewrite fmap_cons. apply NoDup_cons. split; [|now apply IH].
  intros Hin. apply Hx.
  apply list_elem_of_fmap in Hin as (y & Hy & Hin).
  apply list_elem_of_fmap. exists y. split; [now apply Hfh|assumption].
Qed.

Lemma file_records_counts fs file grp :
  file_records fs file grp -> NoDup (count <$> grp).
Proof.
  intros (text & _ & H). apply append_geometries_counts in H as [Hc _].
  change (count <$> grp) with (map count grp). rewrite Hc. apply NoDup_seq.
Qed.

Lemma file_records_fun fs file grp grp' :
  file_records fs file grp -> file_records fs file grp' -> grp = grp'.
Proof.
  intros (text & Hf & H) (text' & Hf' & H'). congruence.
Qed.

Lemma groups_separate_names_nodup fs prefix files groups :
  NoDup (get_basename <$> files) ->
  Forall2 (file_records fs) files groups ->
  NoDup (separate_name prefix <$> concat groups).
Proof.
  intros Hnd HF. revert Hnd.
  induction HF as [|file grp files groups Hr HF IH]; intros Hnd;
    [constructor|].
  rewrite fmap_cons in Hnd. apply NoDup_cons in Hnd as [Hfile Hnd].
  simpl concat. rewrite fmap_app. apply NoDup_app. split; [|split].
  - apply (NoDup_fmap_through count); [|now apply file_records_counts in Hr].
    intros x y Hxy. now apply separate_name_inj in Hxy.
  - intros name Hin1 Hin2.
    apply list_elem_of_fmap in Hin1 as (g & -> & Hg).
    apply list_elem_of_fmap in Hin2 as (g' & Hn & Hg').
    apply separate_name_inj in Hn as [Hb _].
    apply file_records_source in Hr.
    rewrite Forall_forall in Hr. rewrite (Hr g Hg) in Hb.
    pose proof (concat_groups_source fs files groups HF) as Hsrc.
    rewrite Forall_forall in Hsrc. specialize (Hsrc g' Hg').
    apply Hfile. rewrite Hb. apply list_elem_of_fmap.
    now exists (source g').
  - now apply IH.
Qed.

(** X8. When the input files have pairwise distinct base names, the
    Separate strategy gives every extracted record a file of its own: after
    the writer has run, the file named after a record holds exactly that
    record's serialization, so no geometry overwrites another. *)
Theorem separate_one_file_per_record
    (fs fs0 : filesystem) (files : list string) (gs : list Geometry)
    (prefix : string) (g : Geometry) :
  run_extractor fs files = Ok gs ->
  NoDup (get_basename <$> files) ->
  g ∈ gs ->
  write_separate prefix gs fs0 !! separate_name prefix g
  = Some (serialize g).
Proof.
  intros Hrun Hnd Hin.
  apply run_extractor_groups in Hrun as (groups & HF & ->).
  pose proof (groups_separate_names_nodup fs prefix files groups Hnd HF)
    as Hnames.
  apply list_elem_of_split in Hin as (before & after & E).
  rewrite E in Hnames |- *.
  apply write_separate_last.
  rewrite fmap_app, fmap_cons in Hnames.
  apply NoDup_app in Hnames as (_ & _ & Hnames).
  apply NoDup_cons in Hnames as [Hnotin _].
  apply Forall_forall. intros g' Hg' Heq. apply Hnotin.
  rewrite <- Heq. apply list_elem_of_fmap. now exists g'.
Qed.

Lemma separate_one_file_per_record_witness :
  write_separate "out_" [geom_a1; geom_a2; geom_b1] sample_fs
    !! separate_name "out_" geom_a1
  = Some (serialize geom_a1).
Proof.
  apply (separate_one_file_per_record sample_fs sample_fs
           ["run/a.out"; "run/b.out"] [geom_a1; geom_a2; geom_b1]
           "out_" geom_a1).
  - vm_compute. reflexivity.
  - vm_compute. apply NoDup_cons_2; [|apply NoDup_singleton].
    intros H. apply list_elem_of_singleton in H. discriminate H.
  - left.
Defined.

Lemma together_name_inj prefix g g' :
  together_name prefix g = together_name prefix g' ->
  get_basename (source g) = get_basename (source g').
Proof.
  unfold together_name. intros H.
  apply String.app_inj in H. now apply str_app_inj_r in H.
Qed.

Lemma groups_other_names fs prefix files groups file :
  get_basename file ∉ get_basename <$> files ->
  Forall2 (file_records fs) files groups ->
  Forall (fun g => together_name prefix g
                   <> prefix +:+ get_basename file +:+ ".xyz")
         (concat groups).
Proof.
  intros Hnotin HF.
  pose proof (concat_groups_source fs files groups HF) as Hsrc.
  eapply Forall_impl; [exact Hsrc|].
  intros g Hg Heq. apply Hnotin.
  unfold together_name in Heq.
  apply String.app_inj in Heq. apply str_app_inj_r in Heq.
  rewrite <- Heq. apply list_elem_of_fmap. now exists (source g).
Qed.

(** X9. When the input files have pairwise distinct base names, the
    Together strategy gathers each file's geometries: after the writer has
    run over the extractor's list, the file [<prefix><basename>.xyz] of an
    input file with at least one geometry holds the serializations of
    exactly that file's records, in order; for an input file without
    geometries the writer does not touch a file of that name. *)
Theorem together_file_per_source
    (fs fs0 : filesystem) (files : list string) (gs grp : list Geometry)
    (prefix file : string) :
  run_extractor fs files = Ok gs ->
  NoDup (get_basename <$> files) ->
  file ∈ files ->
  file_records fs file grp ->
  (grp <> [] ->
   write_together prefix gs fs0 !! (prefix +:+ get_basename file +:+ ".xyz")
   = Some (concat_text (map serialize grp))) /\
  (grp = [] ->
   write_together prefix gs fs0 !! (prefix +:+ get_basename file +:+ ".xyz")
   = fs0 !! (prefix +:+ get_basename file +:+ ".xyz")).
Proof.
  intros Hrun Hnd Hin Hgrp.
  apply run_extractor_groups in Hrun as (groups & HF & ->).
  apply list_elem_of_split in Hin as (fl1 & fl2 & ->).
  apply Forall2_app_inv_l in HF as (g1 & gr & HF1 & HF2 & ->).
  apply Forall2_cons_inv_l in HF2 as (grp' & g2 & Hr & HF2 & ->).
  rewrite (file_records_fun fs file grp' grp Hr Hgrp).
  rewrite fmap_app, fmap_cons in Hnd.
  apply NoDup_app in Hnd as (_ & Hcross & Hnd2).
  apply NoDup_cons in Hnd2 as [Hnot2 _].
  assert (Hnot1 : get_basename file ∉ get_basename <$> fl1).
  { intros H1. apply (Hcross _ H1). left. }
  pose proof (groups_other_names fs prefix fl1 g1 file Hnot1 HF1) as Ho1.
  pose proof (groups_other_names fs prefix fl2 g2 file Hnot2 HF2) as Ho2.
  rewrite concat_app. simpl concat. split.
  - intros Hne. apply together_run_content; try assumption.
    + apply file_records_source in Hgrp.
      eapply Forall_impl; [exact Hgrp|].
      intros g Hg. unfold together_name. now rewrite Hg.
    + intros g Hlast. rewrite Forall_forall in Ho1. apply Ho1.
      now apply last_Some_elem_of.
  - intros ->. simpl. apply together_loop_other.
    apply Forall_app. now split.
Qed.

Lemma together_file_per_source_witness :
  ([geom_a1; geom_a2] <> [] ->
   write_together "out_" [geom_a1; geom_a2; geom_b1] sample_fs
     !! ("out_" +:+ get_basename "run/a.out" +:+ ".xyz")
   = Some (concat_text (map serialize [geom_a1; geom_a2]))) /\
  ([geom_a1; geom_a2] = [] ->
   write_together "out_" [geom_a1; geom_a2; geom_b1] sample_fs
     !! ("out_" +:+ get_basename "run/a.out" +:+ ".xyz")
   = sample_fs !! ("out_" +:+ get_basename "run/a.out" +:+ ".xyz")).
Proof.
  apply (together_file_per_source sample_fs sample_fs
           ["run/a.out"; "run/b.out"] [geom_a1; geom_a2; geom_b1]
           [geom_a1; geom_a2] "out_" "run/a.out").
  - vm_compute. reflexivity.
  - vm_compute. apply NoDup_cons_2; [|apply NoDup_singleton].
    intros H. apply list_elem_of_singleton in H. discriminate H.
  - left.
  - exists log_a. split; vm_compute; reflexivity.
Defined.

(** *** Base names, further *)

Lemma split_on_pieces (c sep : ascii) (s : string) :
  has_char c s = false \/ c = sep ->
  Forall (fun t => has_char c t = false) (split_on sep s).
Proof.
  induction s as [|x s IH]; intros H.
  - repeat constructor.
  - simpl. destruct (Ascii.eqb x sep) eqn:Ex.
    + constructor; [reflexivity|]. apply IH.
      destruct H as [H| ->]; [|now right].
      simpl in H. apply orb_false_iff in H as [_ H]. now left.
    + assert (Hx : Ascii.eqb x c = false).
      { destruct H as [H| ->]; [|assumption].
        simpl in H. now apply orb_false_iff in H as [H _]. }
      assert (Hs : has_char c s = false \/ c = sep).
      { destruct H as [H| ->]; [|now right].
        simpl in H. apply orb_false_iff in H as [_ H]. now left. }
      specialize (IH Hs).
      destruct (split_on sep s) as [|t ts]; [repeat constructor|].
      * simpl. now rewrite Hx.
      * apply Forall_cons in IH as [Ht Hts]. constructor; [|assumption].
        simpl. now rewrite Hx, Ht.
Qed.

Lemma last_item_Forall (P : string -> Prop) (l : list string) :
  l <> [] -> Forall P l -> P (last_item l).
Proof.
  intros Hne HF. unfold last_item.
  induction HF as [|x l Hx HF IH]; [contradiction|].
  destruct l as [|y l]; [exact Hx|].
  change (P (List.last (y :: l) "")). now apply IH.
Qed.

Lemma first_item_Forall (P : string -> Prop) (l : list string) :
  l <> [] -> Forall P l -> P (first_item l).
Proof. intros Hne HF. destruct HF; [contradiction|assumption]. Qed.

Lemma get_basename_plain (p : string) :
  has_char "/" (get_basename p) = false /\
  has_char "." (get_basename p) = false.
Proof.
  unfold get_basename.
  assert (Hseg : has_char "/" (last_item (split_on "/" p)) = false).
  { apply (last_item_Forall (fun t => has_char "/" t = false));
      [apply split_on_not_nil|].
    apply split_on_pieces. now right. }
  split.
  - apply (first_item_Forall (fun t => has_char "/" t = false));
      [apply split_on_not_nil|].
    apply split_on_pieces. now left.
  - apply (first_item_Forall (fun t => has_char "." t = false));
      [apply split_on_not_nil|].
    apply split_on_pieces. now right.
Qed.

(** X10. A base name holds neither a [/] nor a [.], whatever the path, and
    taking the base name of a base name changes nothing. *)
Theorem basename_has_no_separator (p : string) :
  has_char "/" (get_basename p) = false /\
  has_char "." (get_basename p) = false /\
  get_basename (get_basename p) = get_basename p.
Proof.
  destruct (get_basename_plain p) as [H1 H2].
  repeat split; try assumption. now apply get_basename_stem.
Qed.

(** X11. The base name of a path whose last segment is empty (the path ends
    in [/]) or starts with a dot is the empty string. A record from such a
    source gets, under the Together strategy, the very file name the
    All-together strategy writes to. *)
Theorem empty_basename_collides_with_all_together
    (prefix dir ext : string) (g : Geometry) :
  has_char "/" ext = false ->
  source g = dir +:+ "/" +:+ "." +:+ ext \/ source g = "." +:+ ext \/
  source g = dir +:+ "/" ->
  get_basename (source g) = "" /\
  together_name prefix g = all_together_name prefix.
Proof.
  intros Hext Hsrc.
  assert (H : get_basename (source g) = "").
  { destruct Hsrc as [-> | [-> | ->]].
    - rewrite get_basename_dir. now apply (get_basename_ext "" ext).
    - now apply (get_basename_ext "" ext).
    - change (dir +:+ "/") with (dir +:+ "/" +:+ "").
      now rewrite get_basename_dir. }
  split; [assumption|].
  unfold together_name, all_together_name. now rewrite H.
Qed.

Lemma empty_basename_collides_with_all_together_witness :
  get_basename (source (mkGeometry None None [] "run/.hidden.out" 1)) = "" /\
  together_name "out_" (mkGeometry None None [] "run/.hidden.out" 1)
  = all_together_name "out_".
Proof.
  apply (empty_basename_collides_with_all_together "out_" "run" "hidden.out"
           (mkGeometry None None [] "run/.hidden.out" 1)).
  - reflexivity.
  - left. reflexivity.
Defined.

(** *** Markers *)











(** *** A marker near the end of the file *)

Lemma Geometry_init_eof filename c units fac :
  unit_factor units = Ok fac ->
  Geometry_init filename c units []
  = Ok (mkGeometry None None [] filename c, []).
Proof. intros Hu. unfold Geometry_init. now rewrite Hu. Qed.

(** X14. A marker with at most three lines after it before the file ends
    (a log cut off in the header) is no error: the skipped lines run out,
    the constructor reads nothing, and the file yields a record without
    atoms, which serializes to the count 0 and an empty comment line. *)
Theorem marker_near_end_gives_empty_record
    (filename : string) (pre hs : list string) (marker units : string) :
  Forall (fun l => marker_units l = None) pre ->
  marker_units marker = Some units ->
  length hs <= 3 ->
  append_geometries [] filename (pre ++ marker :: hs)
  = Ok [mkGeometry None None [] filename 1] /\
  serialize (mkGeometry None None [] filename 1) = "0" +:+ nl +:+ nl.
Proof.
  intros Hpre Hm Hlen. split; [|reflexivity].
  unfold append_geometries. rewrite append_loop_no_marker by assumption.
  rewrite append_loop_cons, Hm.
  rewrite skip_lines_drop, drop_ge by assumption.
  destruct (marker_units_factor marker units Hm) as [fac Hu].
  rewrite (Geometry_init_eof filename (0 + 1) units fac Hu).
  now rewrite append_loop_nil.
Qed.

Lemma marker_near_end_gives_empty_record_witness :
  append_geometries [] "run/cut.out"
    ([ln " NWChem"] ++ au_marker :: [nl; header2])
  = Ok [mkGeometry None None [] "run/cut.out" 1] /\
  serialize (mkGeometry None None [] "run/cut.out" 1) = "0" +:+ nl +:+ nl.
Proof.
  apply (marker_near_end_gives_empty_record "run/cut.out"
           [ln " NWChem"] [nl; header2] au_marker "au").
  - repeat constructor.
  - reflexivity.
  - simpl. lia.
Defined.

(** *** Composition *)

(** X15. [append_geometries] only appends: the records handed in come back
    unchanged at the front of the result, and what is extracted from the
    file, or the exception raised, does not depend on them. *)
Theorem append_geometries_keeps_earlier_records
    (gi : list Geometry) (filename : string) (fp : list string) :
  append_geometries gi filename fp =
  match append_geometries [] filename fp with
  | Ok new => Ok (gi ++ new)
  | Raise e => Raise e
  end.
Proof. apply append_geometries_prefix. Qed.

Lemma run_extractor_loop_prefix fs files gi :
  run_extractor_loop fs gi files =
  match run_extractor_loop fs [] files with
  | Ok new => Ok (gi ++ new)
  | Raise e => Raise e
  end.
Proof.
  assert (H : forall gi0 gi,
             (exists t, run_extractor_loop fs gi0 files = Ok (gi0 ++ t) /\
                        run_extractor_loop fs gi files = Ok (gi ++ t)) \/
             (exists e, run_extractor_loop fs gi0 files = Raise e /\
                        run_extractor_loop fs gi files = Raise e)).
  { induction files as [|file files IH]; intros gi0 gi'.
    - left. exists []. simpl. now rewrite !app_nil_r.
    - simpl. unfold open_r. destruct (fs !! file) as [text|]; simpl.
      + rewrite (append_geometries_prefix gi0), (append_geometries_prefix gi').
        destruct (append_geometries [] file (lines_of text)) as [new|e];
          simpl.
        * destruct (IH (gi0 ++ new) (gi' ++ new))
            as [(t & E1 & E2)|(e & E1 & E2)].
          -- left. exists (new ++ t). rewrite E1, E2.
             now rewrite <- !app_assoc.
          -- right. exists e. now rewrite E1, E2.
        * right. now exists e.
      + right. now exists FileNotFoundError. }
  destruct (H [] gi) as [(t & -> & ->)|(e & -> & ->)]; reflexivity.
Qed.

Lemma run_extractor_loop_app fs l1 l2 gi :
  run_extractor_loop fs gi (l1 ++ l2) =
  match run_extractor_loop fs gi l1 with
  | Ok gs => run_extractor_loop fs gs l2
  | Raise e => Raise e
  end.
Proof.
  revert gi. induction l1 as [|file l1 IH]; intros gi; [reflexivity|].
  simpl. unfold open_r. destruct (fs !! file) as [text|]; simpl;
    [|reflexivity].
  destruct (append_geometries gi file (lines_of text)) as [gs|e]; simpl;
    [apply IH|reflexivity].
Qed.

(** X16. Extracting from a list of files put together from two lists gives
    the records of the first list followed by those of the second; it
    raises what the first list raises, or else what the second does. *)
Theorem run_extractor_app (fs : filesystem) (l1 l2 : list string) :
  run_extractor fs (l1 ++ l2) =
  match run_extractor fs l1 with
  | Ok a =>
      match run_extractor fs l2 with
      | Ok b => Ok (a ++ b)
      | Raise e => Raise e
      end
  | Raise e => Raise e
  end.
Proof.
  unfold run_extractor. rewrite run_extractor_loop_app.
  destruct (run_extractor_loop fs [] l1) as [a|e]; [|reflexivity].
  apply run_extractor_loop_prefix.
Qed.

(** *** Reading back what was written *)

Lemma chars_in_sound c t a :
  chars_in t a = true -> has_char c a = false -> has_char c t = false.
Proof.
  intros Ht Ha. induction t as [|d t IH]; [reflexivity|].
  simpl in Ht. apply andb_true_iff in Ht as [Hd Ht].
  simpl. rewrite (IH Ht), orb_false_r.
  destruct (Ascii.eqb_spec d c) as [->|_]; [congruence|reflexivity].
Qed.

Lemma chars_in_app t1 t2 a :
  chars_in (t1 +:+ t2) a = chars_in t1 a && chars_in t2 a.
Proof.
  induction t1 as [|d t1 IH]; [reflexivity|].
  rewrite str_app_cons. simpl. now rewrite IH, andb_assoc.
Qed.

Lemma chars_in_uint d :
  chars_in (NilEmpty.string_of_uint d) repr_alphabet = true.
Proof. induction d; simpl; assumption || reflexivity. Qed.

Lemma chars_in_str_of_N n : chars_in (str_of_N n) repr_alphabet = true.
Proof.
  unfold str_of_N.
  destruct (string_of_uint_empty (N.to_uint n) (to_uint_nonnil _)) as [-> _].
  apply chars_in_uint.
Qed.

Lemma chars_in_str_of_Z z : chars_in (str_of_Z z) repr_alphabet = true.
Proof.
  destruct z as [|p|p].
  - apply (chars_in_str_of_N 0).
  - apply (chars_in_str_of_N (Npos p)).
  - change (has_char "-" repr_alphabet
            && chars_in (str_of_N (Npos p)) repr_alphabet = true).
    now rewrite chars_in_str_of_N.
Qed.

Lemma chars_in_rstrip_zeros t a :
  chars_in t a = true -> chars_in (rstrip_zeros t) a = true.
Proof.
  induction t as [|d t IH]; [reflexivity|].
  simpl. intros H. apply andb_true_iff in H as [Hd Ht].
  specialize (IH Ht). destruct (rstrip_zeros t) as [|d' r].
  - destruct (Ascii.eqb d "0"); [reflexivity|]. simpl. now rewrite Hd.
  - simpl. simpl in IH. now rewrite Hd, IH.
Qed.

Lemma chars_in_substring n m t a :
  chars_in t a = true -> chars_in (String.substring n m t) a = true.
Proof.
  revert n m. induction t as [|d t IH]; intros n m H.
  - now destruct n, m.
  - simpl in H. apply andb_true_iff in H as [Hd Ht].
    destruct n as [|n]; [destruct m as [|m]|]; simpl.
    + reflexivity.
    + now rewrite Hd, IH.
    + now apply IH.
Qed.

Lemma chars_in_zeros n : chars_in (zeros n) repr_alphabet = true.
Proof.
  unfold zeros. induction (Z.to_nat n) as [|k IH]; [reflexivity|exact IH].
Qed.

Lemma chars_in_layout ds decpt :
  chars_in ds repr_alphabet = true ->
  chars_in (layout ds decpt) repr_alphabet = true.
Proof.
  intros Hds. unfold layout.
  repeat match goal with
         | |- context [if ?b then _ else _] => destruct b
         end;
    rewrite ?chars_in_app, ?chars_in_substring, ?chars_in_str_of_Z,
      ?chars_in_zeros, ?Hds by assumption;
    reflexivity.
Qed.

Lemma chars_in_float_repr x : chars_in (float_repr x) repr_alphabet = true.
Proof.
  destruct x as [sg|sg| |sg m e]; try (destruct sg; reflexivity);
    try reflexivity.
  unfold float_repr.
  assert (H : chars_in (fst (shortest_digits m e)) repr_alphabet = true).
  { unfold shortest_digits. destruct (fraction_of m e) as [num den].
    destruct (shortest _ _ _ _ _ _) as [c n]. simpl.
    apply chars_in_rstrip_zeros, chars_in_str_of_Z. }
  destruct (shortest_digits m e) as [ds decpt]. simpl in H.
  rewrite chars_in_app, (chars_in_layout ds decpt H).
  now destruct sg.
Qed.

Lemma float_repr_newline_free x : newline_free (float_repr x) = true.
Proof.
  unfold newline_free.
  now rewrite !(chars_in_sound _ _ _ (chars_in_float_repr x)).
Qed.

(** The tokens of a line hold no white space. *)
Lemma split_no_space c s :
  is_space c = true -> Forall (fun t => has_char c t = false) (split s).
Proof.
  intros Hc. induction s as [|x s IH]; [constructor|].
  simpl. destruct (is_space x) eqn:Hx; [exact IH|].
  assert (Hxc : Ascii.eqb x c = false).
  { destruct (Ascii.eqb_spec x c) as [->|_]; [congruence|reflexivity]. }
  destruct s as [|d s'].
  - repeat constructor. simpl. now rewrite Hxc.
  - destruct (is_space d).
    + constructor; [|exact IH]. simpl. now rewrite Hxc.
    + destruct (split (String d s')) as [|t ts].
      * repeat constructor. simpl. now rewrite Hxc.
      * apply Forall_cons in IH as [Ht Hts]. constructor; [|assumption].
        simpl. now rewrite Hxc, Ht.
Qed.

Lemma newline_free_app a b :
  newline_free (a +:+ b) = newline_free a && newline_free b.
Proof.
  unfold newline_free. rewrite !has_char_app.
  destruct (has_char "010" a), (has_char "013" a),
    (has_char "010" b), (has_char "013" b); reflexivity.
Qed.

Lemma atom_line_newline_free fac line atom :
  atom_line fac (split line) = Ok atom -> newline_free atom = true.
Proof.
  unfold atom_line, item, to_float. intros H.
  destruct (split line !! 3) as [t3|]; simpl in H; [|discriminate].
  destruct (float_of_string t3) as [x|]; simpl in H; [|discriminate].
  destruct (split line !! 4) as [t4|]; simpl in H; [|discriminate].
  destruct (float_of_string t4) as [y|]; simpl in H; [|discriminate].
  destruct (split line !! 5) as [t5|]; simpl in H; [|discriminate].
  destruct (float_of_string t5) as [z|]; simpl in H; [|discriminate].
  destruct (split line !! 1) as [t1|] eqn:E1; simpl in H; [|discriminate].
  injection H as <-.
  rewrite !newline_free_app, !float_repr_newline_free.
  assert (Ht1 : newline_free t1 = true).
  { apply list_elem_of_lookup_2 in E1.
    pose proof (split_no_space "010" line eq_refl) as H10.
    pose proof (split_no_space "013" line eq_refl) as H13.
    rewrite Forall_forall in H10, H13.
    unfold newline_free. now rewrite (H10 t1 E1), (H13 t1 E1). }
  now rewrite Ht1.
Qed.

Lemma read_coords_newline_free fac cs fp cs' fp' :
  Forall (fun a => newline_free a = true) cs ->
  read_coords fac cs fp = Ok (cs', fp') ->
  Forall (fun a => newline_free a = true) cs'.
Proof.
  revert cs. induction fp as [|line fp IH]; intros cs Hcs.
  - simpl. now intros [= <- _].
  - rewrite read_coords_cons.
    destruct (length (split line) =? 0); [now intros [= <- _]|].
    destruct (length (split line) =? 6); [|discriminate].
    destruct (atom_line fac (split line)) as [atom|e] eqn:Ha;
      simpl; [|discriminate].
    apply IH. apply Forall_app. split; [assumption|].
    repeat constructor. now apply atom_line_newline_free in Ha.
Qed.

Lemma Geometry_init_newline_free source c units fp g fp' :
  Geometry_init source c units fp = Ok (g, fp') ->
  Forall (fun a => newline_free a = true) (coords g) /\ lattice g = None.
Proof.
  unfold Geometry_init.
  destruct (unit_factor units) as [fac|e]; simpl; [|discriminate].
  destruct (read_coords fac [] fp) as [[cs r]|e] eqn:E; simpl; [|discriminate].
  intros [= <- _]. simpl. split; [|reflexivity].
  now apply (read_coords_newline_free fac [] fp cs r).
Qed.

Lemma lines_of_line l rest :
  newline_free l = true ->
  lines_of (l +:+ nl +:+ rest) = (l +:+ nl) :: lines_of rest.
Proof.
  induction l as [|c l IH]; intros H.
  - reflexivity.
  - unfold newline_free in H. simpl in H.
    apply andb_true_iff in H as [H10 H13].
    apply negb_true_iff, orb_false_iff in H10 as [Hc10 Hl10].
    apply negb_true_iff, orb_false_iff in H13 as [Hc13 Hl13].
    rewrite !str_app_cons. simpl. rewrite Hc10, Hc13.
    rewrite IH; [reflexivity|].
    unfold newline_free. now rewrite Hl10, Hl13.
Qed.

Lemma lines_of_lines_text ls :
  Forall (fun l => newline_free l = true) ls ->
  lines_of (lines_text ls) = with_newlines ls.
Proof.
  induction 1 as [|l ls Hl HF IH]; [reflexivity|].
  simpl. rewrite lines_of_line by assumption. now rewrite IH.
Qed.

Lemma str_of_nat_newline_free n : newline_free (str_of_nat n) = true.
Proof.
  unfold newline_free, str_of_nat.
  now rewrite !(chars_in_sound _ _ _ (chars_in_str_of_N (N.of_nat n))).
Qed.

(** X17. A record that the constructor built serializes to text that
    reads back, line by line, as the atom count, an empty comment line and
    the atom lines: no atom line holds a line break, since its symbol is a
    token and its coordinates are printed floats. The file so written has
    two lines more than the record has atoms. *)
Theorem extracted_record_reads_back
    (source : string) (c : nat) (units : string) (fp fp' : list string)
    (g : Geometry) :
  Geometry_init source c units fp = Ok (g, fp') ->
  lines_of (serialize g)
  = with_newlines (str_of_nat (length (coords g)) :: "" :: coords g) /\
  length (lines_of (serialize g)) = length (coords g) + 2.
Proof.
  intros H. apply Geometry_init_newline_free in H as [Hc Hl].
  assert (E : lines_of (serialize g)
              = with_newlines
                  (str_of_nat (length (coords g)) :: "" :: coords g)).
  { unfold serialize. rewrite write_lines_text, Hl, str_app_nil_l.
    apply lines_of_lines_text.
    constructor; [apply str_of_nat_newline_free|].
    constructor; [reflexivity|assumption]. }
  split; [exact E|].
  rewrite E. unfold with_newlines. rewrite length_map. simpl. lia.
Qed.

Lemma extracted_record_reads_back_witness :
  lines_of (serialize geom_a2)
  = with_newlines (str_of_nat (length (coords geom_a2)) :: ""
                   :: coords geom_a2) /\
  length (lines_of (serialize geom_a2)) = length (coords geom_a2) + 2.
Proof.
  apply (extracted_record_reads_back "run/a.out" 2 "au"
           (block_a2 ++ [nl; ln "      Atomic Mass"])
           [ln "      Atomic Mass"] geom_a2).
  vm_compute. reflexivity.
Defined.

(** *** The setters *)

(** X18. [set_lattice] and [set_section] change only their own attribute:
    source, count and atom lines stay. A record whose lattice is set to a
    non-empty string without line breaks serializes to text that reads back
    with the extended-XYZ header as its second line; [set_section] never
    changes the serialization. *)
Theorem setters_and_serialization
    (g : Geometry) (l sec : string) :
  l <> "" ->
  newline_free l = true ->
  Forall (fun a => newline_free a = true) (coords g) ->
  lines_of (serialize (set_lattice g l))
  = with_newlines
      (str_of_nat (length (coords g))
       :: ("Lattice=" +:+ l +:+ " Properties=species:S:1:pos:R:3")
       :: coords g) /\
  serialize (set_section g sec) = serialize g /\
  get_source (set_lattice g l) = get_source g /\
  get_count (set_lattice g l) = get_count g /\
  get_source (set_section g sec) = get_source g /\
  get_count (set_section g sec) = get_count g.
Proof.
  intros Hne Hl Hc. split; [|repeat split].
  unfold serialize. rewrite write_lines_text, str_app_nil_l.
  destruct l as [|x l]; [contradiction|].
  apply lines_of_lines_text.
  constructor; [apply str_of_nat_newline_free|].
  constructor; [|assumption].
  change (newline_free ("Lattice=" +:+ String x l
                        +:+ " Properties=species:S:1:pos:R:3") = true).
  now rewrite !newline_free_app, Hl.
Qed.

Lemma setters_and_serialization_witness :
  lines_of (serialize (set_lattice geom_a1 "5.0 0 0 0 5.0 0 0 0 5.0"))
  = with_newlines
      (str_of_nat (length (coords geom_a1))
       :: ("Lattice=" +:+ "5.0 0 0 0 5.0 0 0 0 5.0"
           +:+ " Properties=species:S:1:pos:R:3")
       :: coords geom_a1) /\
  serialize (set_section geom_a1 "optimization") = serialize geom_a1 /\
  get_source (set_lattice geom_a1 "5.0 0 0 0 5.0 0 0 0 5.0")
    = get_source geom_a1 /\
  get_count (set_lattice geom_a1 "5.0 0 0 0 5.0 0 0 0 5.0")
    = get_count geom_a1 /\
  get_source (set_section geom_a1 "optimization") = get_source geom_a1 /\
  get_count (set_section geom_a1 "optimization") = get_count geom_a1.
Proof.
  apply (setters_and_serialization geom_a1 "5.0 0 0 0 5.0 0 0 0 5.0"
           "optimization").
  - discriminate.
  - reflexivity.
  - repeat constructor.
Defined.

End Extras.
